(** * I2C master driver for the PIC18 MSSP peripheral (i2c.c)

    A shallow embedding of the driver: the special function registers are a
    record, the global [ack_flag] is a field of the world next to them, and
    every access of the main path to a register or to [ack_flag] is one atomic
    step.  Before each such step the environment acts: the peripheral may
    rewrite its registers and the interrupt dispatcher may call
    [i2c_interrupt].  Busy-wait loops take a bound on their iterations and
    yield [None] when the bound is reached before the loop exits. *)

From Stdlib Require Import ZArith List Bool Lia.
Import ListNotations.
Local Open Scope Z_scope.

(** ** Registers *)

(** The byte-wide registers of the MSSP module that i2c.c touches. *)
Inductive reg : Type := SSPCON1 | SSPCON2 | SSPSTAT | SSPADD | SSPBUF.

(** The single-bit interrupt flags and enables that i2c.c touches. *)
Inductive sfrbit : Type := SSPIF | BCLIF | SSPIE | BCLIE | PEIE | GIE.

(** The bit fields of [SSPCON2bits]. *)
Inductive con2bit : Type :=
  SEN | RSEN | PEN | RCEN | ACKEN | ACKDT | ACKSTAT | GCEN.

(** Modelled from the spec: the layout of [SSPCON2bits], which the device
    header xc.h declares and which is not among the sources.  The comment of
    [i2c_check_idle] and the description of waitIdle give SEN, RSEN, PEN, RCEN
    and ACKEN as the five bits selected by 0x1F; their order and the
    positions of ACKDT, ACKSTAT and GCEN are those of the MSSP register
    SSPCON2, and nothing below depends on them beyond that. *)
Definition bitpos (b : con2bit) : Z :=
  match b with
  | SEN => 0 | RSEN => 1 | PEN => 2 | RCEN => 3
  | ACKEN => 4 | ACKDT => 5 | ACKSTAT => 6 | GCEN => 7
  end.

Record regs : Type := mkRegs {
  sspcon1 : Z; sspcon2 : Z; sspstat : Z; sspadd : Z; sspbuf : Z;
  sspif : bool; bclif : bool; sspie : bool; bclie : bool;
  peie : bool; gie : bool
}.

Definition byte_of (h : regs) (r : reg) : Z :=
  match r with
  | SSPCON1 => sspcon1 h | SSPCON2 => sspcon2 h | SSPSTAT => sspstat h
  | SSPADD => sspadd h | SSPBUF => sspbuf h
  end.

Definition bit_of (h : regs) (b : sfrbit) : bool :=
  match b with
  | SSPIF => sspif h | BCLIF => bclif h | SSPIE => sspie h
  | BCLIE => bclie h | PEIE => peie h | GIE => gie h
  end.

Definition set_reg (r : reg) (v : Z) (h : regs) : regs :=
  match r with
  | SSPCON1 => mkRegs v (sspcon2 h) (sspstat h) (sspadd h) (sspbuf h)
                 (sspif h) (bclif h) (sspie h) (bclie h) (peie h) (gie h)
  | SSPCON2 => mkRegs (sspcon1 h) v (sspstat h) (sspadd h) (sspbuf h)
                 (sspif h) (bclif h) (sspie h) (bclie h) (peie h) (gie h)
  | SSPSTAT => mkRegs (sspcon1 h) (sspcon2 h) v (sspadd h) (sspbuf h)
                 (sspif h) (bclif h) (sspie h) (bclie h) (peie h) (gie h)
  | SSPADD => mkRegs (sspcon1 h) (sspcon2 h) (sspstat h) v (sspbuf h)
                 (sspif h) (bclif h) (sspie h) (bclie h) (peie h) (gie h)
  | SSPBUF => mkRegs (sspcon1 h) (sspcon2 h) (sspstat h) (sspadd h) v
                 (sspif h) (bclif h) (sspie h) (bclie h) (peie h) (gie h)
  end.

Definition set_bit (b : sfrbit) (v : bool) (h : regs) : regs :=
  match b with
  | SSPIF => mkRegs (sspcon1 h) (sspcon2 h) (sspstat h) (sspadd h) (sspbuf h)
               v (bclif h) (sspie h) (bclie h) (peie h) (gie h)
  | BCLIF => mkRegs (sspcon1 h) (sspcon2 h) (sspstat h) (sspadd h) (sspbuf h)
               (sspif h) v (sspie h) (bclie h) (peie h) (gie h)
  | SSPIE => mkRegs (sspcon1 h) (sspcon2 h) (sspstat h) (sspadd h) (sspbuf h)
               (sspif h) (bclif h) v (bclie h) (peie h) (gie h)
  | BCLIE => mkRegs (sspcon1 h) (sspcon2 h) (sspstat h) (sspadd h) (sspbuf h)
               (sspif h) (bclif h) (sspie h) v (peie h) (gie h)
  | PEIE => mkRegs (sspcon1 h) (sspcon2 h) (sspstat h) (sspadd h) (sspbuf h)
               (sspif h) (bclif h) (sspie h) (bclie h) v (gie h)
  | GIE => mkRegs (sspcon1 h) (sspcon2 h) (sspstat h) (sspadd h) (sspbuf h)
               (sspif h) (bclif h) (sspie h) (bclie h) (peie h) v
  end.

(** [SSPCON2bits.b = v]: one bit of SSPCON2 is set or cleared, the others
    keep their value. *)
Definition set_con2 (b : con2bit) (v : bool) (h : regs) : regs :=
  set_reg SSPCON2
    (if v then Z.setbit (sspcon2 h) (bitpos b)
     else Z.clearbit (sspcon2 h) (bitpos b)) h.

(** [SSPCON2bits.b] read as an int: 0 or 1. *)
Definition get_con2 (b : con2bit) (h : regs) : Z :=
  Z.b2z (Z.testbit (sspcon2 h) (bitpos b)).

(** ** C integer conversions *)

(** Conversion to [unsigned char]. *)
Definition to_uchar (x : Z) : Z := x mod 256.

(** Conversion to [signed char] (two's complement wrap-around). *)
Definition to_schar (x : Z) : Z := (x + 128) mod 256 - 128.

(** Conversion to plain [char]; its signedness is the compiler's choice
    (XC8: unsigned unless asked otherwise), so it is a parameter. *)
Definition to_char (char_signed : bool) (x : Z) : Z :=
  if char_signed then to_schar x else to_uchar x.

(** ** Events, world and environment *)

(** What the main path and the interrupt handler do, in the order in which
    it happens. *)
Inductive event : Type :=
| EvRead (r : reg) (v : Z)            (* a register is read, v is the value *)
| EvWrite (r : reg) (v : Z)           (* a register is written *)
| EvBitRead (b : con2bit) (v : Z)     (* SSPCON2bits.b is read *)
| EvBitWrite (b : con2bit) (v : bool) (* SSPCON2bits.b = v *)
| EvSfrWrite (b : sfrbit) (v : bool)  (* a flag or enable bit is written *)
| EvFlagRead (v : Z)                  (* ack_flag is read by the main path *)
| EvFlagWrite (v : Z)                 (* ack_flag = v by the main path *)
| EvIsr (ssp bcl : bool) (flag : Z).  (* i2c_interrupt runs; SSPIF, BCLIF and
                                         ack_flag as it finds them *)

Record world : Type := mkWorld {
  hw : regs;            (* the peripheral's registers *)
  ack_flag : Z;         (* int ack_flag; *)
  clock : nat;          (* number of steps of the main path so far *)
  trace : list event
}.

Definition with_hw (h : regs) (w : world) : world :=
  mkWorld h (ack_flag w) (clock w) (trace w).

Definition with_flag (v : Z) (w : world) : world :=
  mkWorld (hw w) v (clock w) (trace w).

Definition log (e : event) (w : world) : world :=
  mkWorld (hw w) (ack_flag w) (clock w) (trace w ++ [e]).

(** What the environment can do between two steps of the main path: the
    peripheral changes its registers, or the interrupt dispatcher of main.c
    calls [i2c_interrupt]. *)
Inductive env_event : Type :=
| Hw (f : regs -> regs)
| Irq.

(** The environment: what happens just before the main path's step number
    [t]. *)
Definition schedule : Type := nat -> list env_event.

(** ** i2c_interrupt *)

Definition i2c_interrupt (w : world) : world :=
  let w0 := log (EvIsr (bit_of (hw w) SSPIF) (bit_of (hw w) BCLIF)
                   (ack_flag w)) w in
  let w1 :=
    if bit_of (hw w0) SSPIF then
      let w' := if ack_flag w0 =? 1 then with_flag 0 w0 else w0 in
      with_hw (set_bit SSPIF false (hw w')) w'
    else w0 in
  if bit_of (hw w1) BCLIF then with_hw (set_bit BCLIF false (hw w1)) w1
  else w1.

Definition env_step (w : world) (e : env_event) : world :=
  match e with
  | Hw f => with_hw (f (hw w)) w
  | Irq => i2c_interrupt w
  end.

(** ** The monad of the main path *)

Definition St (A : Type) : Type := world -> A * world.
Definition M (A : Type) : Type := world -> option (A * world).

Definition ret {A : Type} (a : A) : M A := fun w => Some (a, w).

Definition bind {A B : Type} (m : M A) (k : A -> M B) : M B :=
  fun w => match m w with
           | Some (a, w') => k a w'
           | None => None
           end.

Definition lift {A : Type} (s : St A) : M A := fun w => Some (s w).

(** The bound on the iterations of a loop is reached. *)
Definition spin {A : Type} : M A := fun _ => None.

Notation "x <- m ;; k" := (bind m (fun x => k))
  (at level 61, m at next level, right associativity).
Notation "m ;;; k" := (bind m (fun _ => k))
  (at level 61, right associativity).

Section Driver.

Variable char_signed : bool.
Variable sched : schedule.

(** The environment acts, then the main path takes its next step. *)
Definition tick (w : world) : world :=
  let w' := fold_left env_step (sched (clock w)) w in
  mkWorld (hw w') (ack_flag w') (S (clock w)) (trace w').

(** *** Atomic steps of the main path *)

Definition read_reg (r : reg) : St Z :=
  fun w => let w1 := tick w in
           let v := byte_of (hw w1) r in
           (v, log (EvRead r v) w1).

(** The registers are eight bits wide: the stored value is converted to
    [unsigned char]. *)
Definition write_reg (r : reg) (v : Z) : St unit :=
  fun w => let w1 := tick w in
           let b := to_uchar v in
           (tt, log (EvWrite r b) (with_hw (set_reg r b (hw w1)) w1)).

Definition read_con2 (b : con2bit) : St Z :=
  fun w => let w1 := tick w in
           let v := get_con2 b (hw w1) in
           (v, log (EvBitRead b v) w1).

Definition write_con2 (b : con2bit) (v : bool) : St unit :=
  fun w => let w1 := tick w in
           (tt, log (EvBitWrite b v) (with_hw (set_con2 b v (hw w1)) w1)).

Definition write_sfr (b : sfrbit) (v : bool) : St unit :=
  fun w => let w1 := tick w in
           (tt, log (EvSfrWrite b v) (with_hw (set_bit b v (hw w1)) w1)).

Definition load_ack_flag : St Z :=
  fun w => let w1 := tick w in
           (ack_flag w1, log (EvFlagRead (ack_flag w1)) w1).

Definition store_ack_flag (v : Z) : St unit :=
  fun w => let w1 := tick w in
           (tt, log (EvFlagWrite v) (with_flag v w1)).

(** *** i2c_check_idle *)

(** One evaluation of the loop condition
    [(SSPCON2 & 0x1F) | (SSPSTAT & mask)]: the two registers are read one
    after the other, left operand first. *)
Definition poll : St (Z * Z) :=
  fun w => let (c, w1) := read_reg SSPCON2 w in
           let (s, w2) := read_reg SSPSTAT w1 in
           ((c, s), w2).

Definition busy (mask : Z) (cs : Z * Z) : Z :=
  Z.lor (Z.land (fst cs) 0x1F) (Z.land (snd cs) mask).

Fixpoint i2c_check_idle (fuel : nat) (mask : Z) : M unit :=
  match fuel with
  | O => spin
  | S fuel' =>
      cs <- lift poll ;;
      if busy mask cs =? 0 then ret tt else i2c_check_idle fuel' mask
  end.

(** *** The wait for the interrupt: [while (ack_flag);]

    [ack_flag] is read anew in every iteration: the loop ends because the
    handler clears the flag while the main path spins. *)

Fixpoint wait_ack (fuel : nat) : M unit :=
  match fuel with
  | O => spin
  | S fuel' =>
      v <- lift load_ack_flag ;;
      if v =? 0 then ret tt else wait_ack fuel'
  end.

(** *** i2c_init_master *)

Definition i2c_init_master : M unit :=
  lift (write_reg SSPCON1 0x28) ;;;
  lift (write_reg SSPSTAT 0x00) ;;;
  lift (write_reg SSPADD 0x77) ;;;
  lift (write_sfr SSPIE true) ;;;
  lift (write_sfr BCLIE true) ;;;
  lift (write_sfr PEIE true) ;;;
  lift (write_sfr GIE true) ;;;
  lift (write_sfr SSPIF false) ;;;
  lift (write_sfr BCLIF false).

(** *** i2c_start *)

Definition i2c_start (fuel : nat) (adrs rw : Z) : M Z :=
  i2c_check_idle fuel 0x5 ;;;
  lift (write_con2 SEN true) ;;;
  i2c_check_idle fuel 0x5 ;;;
  lift (store_ack_flag 1) ;;;
  lift (write_reg SSPBUF (to_uchar (Z.shiftl adrs 1 + rw))) ;;;
  wait_ack fuel ;;;
  lift (read_con2 ACKSTAT).

(** *** i2c_rstart *)

Definition i2c_rstart (fuel : nat) (adrs rw : Z) : M Z :=
  i2c_check_idle fuel 0x5 ;;;
  lift (write_con2 RSEN true) ;;;
  i2c_check_idle fuel 0x5 ;;;
  lift (store_ack_flag 1) ;;;
  lift (write_reg SSPBUF (to_char char_signed (Z.shiftl adrs 1 + rw))) ;;;
  wait_ack fuel ;;;
  lift (read_con2 ACKSTAT).

(** *** i2c_stop *)

Definition i2c_stop (fuel : nat) : M unit :=
  i2c_check_idle fuel 0x5 ;;;
  lift (write_con2 PEN true).

(** *** i2c_send *)

Definition i2c_send (fuel : nat) (dt : Z) : M Z :=
  i2c_check_idle fuel 0x5 ;;;
  lift (store_ack_flag 1) ;;;
  lift (write_reg SSPBUF dt) ;;;
  wait_ack fuel ;;;
  lift (read_con2 ACKSTAT).

(** *** i2c_receive *)

(** [ACKDT] is one bit wide: [SSPCON2bits.ACKDT = ack] stores the low bit of
    [ack].  The result is a [char]. *)
Definition i2c_receive (fuel : nat) (ack : Z) : M Z :=
  i2c_check_idle fuel 0x5 ;;;
  lift (write_con2 RCEN true) ;;;
  i2c_check_idle fuel 0x4 ;;;
  dt <- lift (read_reg SSPBUF) ;;
  i2c_check_idle fuel 0x5 ;;;
  lift (write_con2 ACKDT (Z.odd ack)) ;;;
  lift (write_con2 ACKEN true) ;;;
  ret (to_char char_signed dt).

(** *** Observation points used by the statements *)

(** The world after [n] evaluations of the loop condition of
    [i2c_check_idle], and the pair (SSPCON2, SSPSTAT) that evaluation number
    [n] reads. *)
Fixpoint after_polls (n : nat) (w : world) : world :=
  match n with
  | O => w
  | S k => after_polls k (snd (poll w))
  end.

Definition snapshot (n : nat) (w : world) : Z * Z :=
  fst (poll (after_polls n w)).

(** The same for the reads of [ack_flag] in [while (ack_flag);]. *)
Fixpoint after_loads (n : nat) (w : world) : world :=
  match n with
  | O => w
  | S k => after_loads k (snd (load_ack_flag w))
  end.

Definition flag_seen (n : nat) (w : world) : Z :=
  fst (load_ack_flag (after_loads n w)).

(** A peripheral that always reaches a state in which the idle condition
    holds, whatever the state it is polled from. *)
Definition bus_settles : Prop :=
  forall (mask : Z) (w : world), exists n, busy mask (snapshot n w) = 0.

(** An interrupt path that always ends up clearing an armed [ack_flag]. *)
Definition signal_arrives : Prop :=
  forall w : world, ack_flag w = 1 -> exists n, flag_seen n w = 0.

(** The sequence that the spec gives for start and for repeatedStart, with
    the condition bit as a parameter: idle-wait, assert the condition,
    idle-wait, arm the flag, transmit the address shifted left by one with
    the direction in the low bit, wait for the flag, return the
    acknowledgement status. *)
Definition address_phase (cond : con2bit) (fuel : nat) (adrs rw : Z) : M Z :=
  i2c_check_idle fuel 0x5 ;;;
  lift (write_con2 cond true) ;;;
  i2c_check_idle fuel 0x5 ;;;
  lift (store_ack_flag 1) ;;;
  lift (write_reg SSPBUF ((2 * adrs + rw) mod 256)) ;;;
  wait_ack fuel ;;;
  lift (read_con2 ACKSTAT).

End Driver.

(** ** Reading a trace *)

(** The events of the main path; those of the interrupt handler left out. *)
Definition is_main (e : event) : bool :=
  match e with
  | EvIsr _ _ _ => false
  | _ => true
  end.

Definition main (t : list event) : list event := filter is_main t.

(** The synchronization bridge as the spec names it: [Arm] is
    [ack_flag = 1], [Clear] is a run of the handler that finds the completion
    signal pending and the flag set, [Return] is the read of [ack_flag] that
    ends [while (ack_flag);]. *)
Inductive bridge_event : Type := Arm | Clear | Return.

Definition bridge_of (e : event) : list bridge_event :=
  match e with
  | EvFlagWrite v => if v =? 1 then [Arm] else []
  | EvIsr ssp _ flag => if ssp && (flag =? 1) then [Clear] else []
  | EvFlagRead v => if v =? 0 then [Return] else []
  | _ => []
  end.

Definition bridge (t : list event) : list bridge_event :=
  flat_map bridge_of t.

(** The events of one evaluation of the idle condition. *)
Definition poll_events (cs : Z * Z) : list event :=
  [EvRead SSPCON2 (fst cs); EvRead SSPSTAT (snd cs)].

(** The events of a complete idle-wait: busy evaluations, then one that finds
    the condition zero. *)
Definition idle_wait (mask : Z) (t : list event) : Prop :=
  exists (pre : list (Z * Z)) (last : Z * Z),
    t = flat_map poll_events pre ++ poll_events last /\
    Forall (fun cs => busy mask cs <> 0) pre /\
    busy mask last = 0.

(** The events of a complete [while (ack_flag);]. *)
Definition flag_wait (t : list event) : Prop :=
  exists pre : list Z,
    t = map EvFlagRead pre ++ [EvFlagRead 0] /\
    Forall (fun v => v <> 0) pre.

(** [w'] is reached from [w] by events whose main-path part is [m] and whose
    bridge part is [b]. *)
Definition seg (w w' : world) (m : list event) (b : list bridge_event)
  : Prop :=
  exists d, trace w' = trace w ++ d /\ main d = m /\ bridge d = b.

(** What runs of the handler can do to the flag between two steps of the
    main path: nothing, or clear it once. *)
Inductive isr_effect : Z -> Z -> list bridge_event -> Prop :=
| isr_same (f : Z) : isr_effect f f []
| isr_clear : isr_effect 1 0 [Clear].

(** The idle condition in the words of the spec: the five condition bits are
    zero and so is every status bit that the mask selects. *)
Definition conditions_clear (c : Z) : Prop :=
  forall b, In b [SEN; RSEN; PEN; RCEN; ACKEN] ->
            Z.testbit c (bitpos b) = false.

Definition masked_clear (mask s : Z) : Prop :=
  forall i, 0 <= i -> Z.testbit mask i = true -> Z.testbit s i = false.

Definition idle (mask : Z) (cs : Z * Z) : Prop :=
  conditions_clear (fst cs) /\ masked_clear mask (snd cs).

(** The divisor in the words of the spec. *)
Definition clock_divisor (cpu_clock bus_rate : Z) : Z :=
  cpu_clock / (4 * bus_rate) - 1.

(** The clock and the bus rate that the header comment of i2c.c states. *)
Definition FOSC : Z := 48000000.
Definition I2C_RATE : Z := 100000.

(** ** The events of each operation *)

(** start and repeatedStart: idle-wait, the condition bit, idle-wait, the
    flag armed and SSPBUF loaded with [byte], the wait for the flag, ACKSTAT
    read as [r]. *)
Definition address_events (cond : con2bit) (byte r : Z) (m : list event)
  : Prop :=
  exists m1 m2 m3,
    m = m1 ++ [EvBitWrite cond true] ++ m2 ++
        [EvFlagWrite 1; EvWrite SSPBUF byte] ++ m3 ++ [EvBitRead ACKSTAT r] /\
    idle_wait 5 m1 /\ idle_wait 5 m2 /\ flag_wait m3.


Definition stop_events (m : list event) : Prop :=
  exists m1, m = m1 ++ [EvBitWrite PEN true] /\ idle_wait 5 m1.

Definition receive_events (ack byte : Z) (m : list event) : Prop :=
  exists m1 m2 m3,
    m = m1 ++ [EvBitWrite RCEN true] ++ m2 ++ [EvRead SSPBUF byte] ++ m3 ++
        [EvBitWrite ACKDT (Z.odd ack); EvBitWrite ACKEN true] /\
    idle_wait 5 m1 /\ idle_wait 4 m2 /\ idle_wait 5 m3.

Definition init_events : list event :=
  [EvWrite SSPCON1 0x28; EvWrite SSPSTAT 0; EvWrite SSPADD 0x77;
   EvSfrWrite SSPIE true; EvSfrWrite BCLIE true; EvSfrWrite PEIE true;
   EvSfrWrite GIE true; EvSfrWrite SSPIF false; EvSfrWrite BCLIF false].





(** ** Sequences of operations *)

Inductive op : Type :=
| OpStart (adrs rw : Z)
| OpRstart (adrs rw : Z)
| OpStop
| OpSend (dt : Z)
| OpReceive (ack : Z).

Definition run_op (char_signed : bool) (sched : schedule) (fuel : nat)
           (o : op) : M Z :=
  match o with
  | OpStart adrs rw => i2c_start sched fuel adrs rw
  | OpRstart adrs rw => i2c_rstart char_signed sched fuel adrs rw
  | OpStop => i2c_stop sched fuel ;;; ret 0
  | OpSend dt => i2c_send sched fuel dt
  | OpReceive ack => i2c_receive char_signed sched fuel ack
  end.

Fixpoint run_ops (char_signed : bool) (sched : schedule) (fuel : nat)
         (os : list op) : M (list Z) :=
  match os with
  | [] => ret []
  | o :: os' =>
      r <- run_op char_signed sched fuel o ;;
      rs <- run_ops char_signed sched fuel os' ;;
      ret (r :: rs)
  end.

(** The operations that arm the flag and wait for it. *)
Definition arms (o : op) : bool :=
  match o with
  | OpStart _ _ | OpRstart _ _ | OpSend _ => true
  | OpStop | OpReceive _ => false
  end.

Definition rendezvous (os : list op) : list bridge_event :=
  flat_map (fun o => if arms o then [Arm; Clear; Return] else []) os.

(** ** Simulated peripherals *)

(** The world at reset: registers zero, [ack_flag] zero as a C global. *)
Definition world0 : world :=
  mkWorld (mkRegs 0 0 0 0 0 false false false false false false) 0 O [].

(** The peripheral finishes what it was asked: condition bits and status
    bits zero, ACKSTAT as the peer answers, [rx] in the buffer, completion
    signal pending. *)
Definition complete (acked : bool) (rx : Z) (h : regs) : regs :=
  mkRegs (sspcon1 h) (if acked then 0 else 0x40) 0 (sspadd h) rx
         true (bclif h) (sspie h) (bclie h) (peie h) (gie h).

(** The peripheral is at work: R/W is set. *)
Definition working (h : regs) : regs := set_reg SSPSTAT 0x04 h.

(** A peer that answers before every step of the main path. *)
Definition peer (acked : bool) (rx : Z) : schedule :=
  fun _ => [Hw (complete acked rx); Irq].

(** A peer that answers every third step and is at work in between. *)
Definition slow_peer (acked : bool) (rx : Z) : schedule :=
  fun t => if Nat.eqb (t mod 3) 2 then [Hw (complete acked rx); Irq]
           else [Hw working].

(** A peripheral that does nothing and raises no interrupt. *)
Definition dead : schedule := fun _ => [].

(** A bus conflict is signalled while a transfer is armed: BCLIF is set,
    SSPIF is not, [ack_flag] is 1. *)
Definition conflict_world : world :=
  mkWorld (mkRegs 0x28 0 0 0x77 0 false true true true true true) 1 O [].

(** The world in which a run ends ([world0] when the bound was reached). *)
Definition run_world {A : Type} (x : option (A * world)) : world :=
  match x with
  | Some (_, w) => w
  | None => world0
  end.


(** An environment under which the idle-wait started at step [c0] reads the
    snapshots [f 0], [f 1], ... *)
Definition snapshots_sched (f : nat -> Z * Z) (c0 : nat) : schedule :=
  fun t => [Hw (fun h => set_reg SSPSTAT (snd (f ((t - c0) / 2)%nat))
                           (set_reg SSPCON2 (fst (f ((t - c0) / 2)%nat)) h))].

(** ** Environments and projections used beyond the claims *)

(** The peripheral never raises the completion signal: none of its actions
    sets SSPIF. *)
Definition never_pending (sched : schedule) : Prop :=
  forall t f, In (Hw f) (sched t) ->
              forall h, sspif h = false -> sspif (f h) = false.

(** The peripheral never clears the bit [c] of SSPCON2 once it is set. *)
Definition keeps_bit (c : con2bit) (sched : schedule) : Prop :=
  forall t f, In (Hw f) (sched t) ->
              forall h, get_con2 c h = 1 -> get_con2 c (f h) = 1.

(** A bus conflict is signalled before every step and the handler is called
    for it; the completion signal is never raised. *)
Definition conflict_only : schedule :=
  fun _ => [Hw (set_bit BCLIF true); Irq].

(** The writes of the main path: to a register, to a bit of SSPCON2, to an
    interrupt flag or enable, to [ack_flag]. *)
Definition is_write (e : event) : bool :=
  match e with
  | EvWrite _ _ | EvBitWrite _ _ | EvSfrWrite _ _ | EvFlagWrite _ => true
  | _ => false
  end.

(** The writes of one operation, in program order. *)
Definition op_writes (o : op) : list event :=
  match o with
  | OpStart adrs rw =>
      [EvBitWrite SEN true; EvFlagWrite 1;
       EvWrite SSPBUF ((2 * adrs + rw) mod 256)]
  | OpRstart adrs rw =>
      [EvBitWrite RSEN true; EvFlagWrite 1;
       EvWrite SSPBUF ((2 * adrs + rw) mod 256)]
  | OpStop => [EvBitWrite PEN true]
  | OpSend dt => [EvFlagWrite 1; EvWrite SSPBUF (dt mod 256)]
  | OpReceive ack =>
      [EvBitWrite RCEN true; EvBitWrite ACKDT (Z.odd ack);
       EvBitWrite ACKEN true]
  end.



(** The peer of [peer] for the first [n] steps, nothing afterwards. *)
Definition peer_until (n : nat) (acked : bool) (rx : Z) : schedule :=
  fun t => if (t <? n)%nat then [Hw (complete acked rx); Irq] else [].

(** The environment does nothing before the [n] steps that follow step
    [c0]. *)
Definition quiet_for (n c0 : nat) (sched : schedule) : Prop :=
  forall k, (k < n)%nat -> sched (c0 + k)%nat = [].

(** ** The transfers, with their state *)

(** Modelled from the spec: the layout of SSPSTAT, which the device header
    xc.h declares and which is not among the sources.  The comment of
    [i2c_check_idle] names R/W and BF as the two status bits of mask 0x5;
    their positions are those of the MSSP register SSPSTAT: BF (buffer full)
    is bit 0. *)
Definition BF : Z := 0.

(** Modelled from the spec: the position of R/W (a transfer is in progress)
    in SSPSTAT, bit 2, from the same layout of the device header. *)
Definition R_W : Z := 2.

(** The peripheral never writes SSPBUF. *)
Definition keeps_buffer (sched : schedule) : Prop :=
  forall t f, In (Hw f) (sched t) -> forall h, sspbuf (f h) = sspbuf h.

(** What the main path does before it arms the flag: for sendByte an
    idle-wait, for start and repeatedStart an idle-wait, the write of the
    condition bit and an idle-wait. *)
Definition prelude (cond : option con2bit) (m : list event) : Prop :=
  match cond with
  | None => idle_wait 5 m
  | Some c =>
      exists m1 m2,
        m = m1 ++ [EvBitWrite c true] ++ m2 /\
        idle_wait 5 m1 /\ idle_wait 5 m2
  end.

(** A run from [w] to [w'] that arms the flag, loads [byte] into SSPBUF,
    waits for the flag and reads ACKSTAT as [r], with the runs of the
    handler in their places: [d0] is what happens before the flag is armed,
    [d2] between the arming and the load of the buffer (runs of the handler
    only), [d3] between the load and the read of ACKSTAT.  After the arming
    exactly one run of the handler finds the completion signal pending and
    the flag at 1; it falls after the load of the buffer or, when a signal
    is pending already, between the arming and the load. *)
Definition armed_transfer (cond : option con2bit) (byte r : Z)
           (w w' : world) : Prop :=
  exists d0 d2 d3,
    trace w' = trace w ++ d0 ++ [EvFlagWrite 1] ++ d2 ++
               [EvWrite SSPBUF byte] ++ d3 ++ [EvBitRead ACKSTAT r] /\
    prelude cond (main d0) /\
    (ack_flag w = 0 -> bridge d0 = []) /\
    main d2 = [] /\
    flag_wait (main d3) /\
    ((bridge d2 = [] /\ bridge d3 = [Clear; Return]) \/
     (bridge d2 = [Clear] /\ bridge d3 = [Return])) /\
    (exists bcl, In (EvIsr true bcl 1) (d2 ++ d3)).

(** The runs of the handler in a trace that found the flag at 1, and the
    reads of the main path that found it at 0 (the ends of the waits). *)
Definition found_set (t : list event) : nat :=
  length (filter (fun e => match e with
                           | EvIsr _ _ flag => flag =? 1
                           | _ => false
                           end) t).

Definition wait_ends (t : list event) : nat :=
  length (filter (fun e => match e with
                           | EvFlagRead v => v =? 0
                           | _ => false
                           end) t).

(** The peripheral finishes a transmission and leaves SSPBUF alone:
    condition bits and status bits zero, ACKSTAT as the peer answers,
    completion signal pending. *)
Definition answer (acked : bool) (h : regs) : regs :=
  mkRegs (sspcon1 h) (if acked then 0 else 0x40) 0 (sspadd h) (sspbuf h)
         true (bclif h) (sspie h) (bclie h) (peie h) (gie h).

(** A peer that answers a transmission before every step. *)
Definition tx_peer (acked : bool) : schedule :=
  fun _ => [Hw (answer acked); Irq].

(** An idle bus on which an earlier transfer was not acknowledged (ACKSTAT
    is set) and whose completion signal is still pending: SSPIF is set and
    the handler has not run yet. *)
Definition stale_world : world :=
  mkWorld (mkRegs 0x28 0x40 0 0x77 0 true false true true true true) 0 O [].

(** The peripheral does nothing; the handler is called once, before step
    [n] of the main path. *)
Definition dispatch_at (n : nat) : schedule :=
  fun t => if Nat.eqb t n then [Irq] else [].

(** Three bus conflicts while sendByte waits (before steps 4, 5 and 6),
    each with a run of the handler, then the completion (before step
    7). *)
Definition conflicts_then_completion : schedule :=
  fun t => if (Nat.leb 4 t && Nat.ltb t 7)%bool
           then [Hw (set_bit BCLIF true); Irq]
           else if Nat.eqb t 7 then [Hw (answer true); Irq] else [].

(** The peripheral keeps a byte in flight for ever: R/W is set before every
    step. *)
Definition in_flight : schedule := fun _ => [Hw working].

(** The byte has arrived: no condition bit is set and BF is set, before
    every step. *)
Definition arrived (rx : Z) : schedule :=
  fun _ => [Hw (fun h => set_reg SSPBUF rx
                           (set_reg SSPSTAT 0x01 (set_reg SSPCON2 0 h)))].

(** * Facts *)

(** ** Traces *)

Lemma main_app (t1 t2 : list event) : main (t1 ++ t2) = main t1 ++ main t2.
Proof. unfold main. apply filter_app. Qed.

Lemma bridge_app (t1 t2 : list event) :
  bridge (t1 ++ t2) = bridge t1 ++ bridge t2.
Proof. unfold bridge. apply flat_map_app. Qed.

Lemma seg_refl (w : world) : seg w w [] [].
Proof. exists []. rewrite app_nil_r. auto. Qed.

Lemma seg_trans (w1 w2 w3 : world) m1 m2 b1 b2 :
  seg w1 w2 m1 b1 -> seg w2 w3 m2 b2 -> seg w1 w3 (m1 ++ m2) (b1 ++ b2).
Proof.
  intros (d1 & E1 & M1 & B1) (d2 & E2 & M2 & B2).
  exists (d1 ++ d2). rewrite E2, E1, app_assoc, main_app, bridge_app.
  subst. auto.
Qed.

Lemma seg_eq (w w' : world) m m' b b' :
  seg w w' m b -> m = m' -> b = b' -> seg w w' m' b'.
Proof. intros H -> ->. exact H. Qed.

Lemma seg_log (w : world) (e : event) :
  seg w (log e w) (main [e]) (bridge [e]).
Proof. exists [e]. auto. Qed.

Lemma isr_effect_trans f1 f2 f3 b1 b2 :
  isr_effect f1 f2 b1 -> isr_effect f2 f3 b2 -> isr_effect f1 f3 (b1 ++ b2).
Proof.
  intros H1 H2. destruct H1.
  - exact H2.
  - inversion H2; subst. constructor.
Qed.

Lemma isr_effect_zero f b : isr_effect 0 f b -> f = 0 /\ b = [].
Proof. intros H. inversion H; subst; auto. Qed.

Lemma isr_effect_armed b : isr_effect 1 0 b -> b = [Clear].
Proof. intros H. inversion H; subst; auto. Qed.

Lemma isr_effect_cases f f' b : isr_effect f f' b -> f' = f \/ f' = 0.
Proof. intros H. destruct H; auto. Qed.

(** ** The handler and the environment *)

Lemma i2c_interrupt_trace (w : world) :
  trace (i2c_interrupt w) =
  trace w ++ [EvIsr (bit_of (hw w) SSPIF) (bit_of (hw w) BCLIF) (ack_flag w)].
Proof.
  destruct w as [h f c t]; destruct h as [c1 c2 st ad bf si bc se be pe ge].
  unfold i2c_interrupt; cbn.
  destruct si, (f =? 1), bc; reflexivity.
Qed.

Lemma i2c_interrupt_clock (w : world) : clock (i2c_interrupt w) = clock w.
Proof.
  destruct w as [h f c t]; destruct h as [c1 c2 st ad bf si bc se be pe ge].
  unfold i2c_interrupt; cbn.
  destruct si, (f =? 1), bc; reflexivity.
Qed.

Lemma i2c_interrupt_flag (w : world) :
  ack_flag (i2c_interrupt w) =
  if bit_of (hw w) SSPIF && (ack_flag w =? 1) then 0 else ack_flag w.
Proof.
  destruct w as [h f c t]; destruct h as [c1 c2 st ad bf si bc se be pe ge].
  unfold i2c_interrupt; cbn.
  destruct si, (f =? 1), bc; reflexivity.
Qed.

Lemma env_step_spec (w : world) (e : env_event) :
  clock (env_step w e) = clock w /\
  exists d, trace (env_step w e) = trace w ++ d /\ main d = [] /\
            isr_effect (ack_flag w) (ack_flag (env_step w e)) (bridge d).
Proof.
  destruct e as [f|]; cbn [env_step].
  - split; [reflexivity|]. exists []. cbn. rewrite app_nil_r.
    repeat split. constructor.
  - split; [apply i2c_interrupt_clock|].
    eexists. split; [apply i2c_interrupt_trace|]. split; [reflexivity|].
    rewrite i2c_interrupt_flag. cbn.
    destruct (sspif (hw w)); cbn.
    + destruct (ack_flag w =? 1) eqn:E; cbn.
      * apply Z.eqb_eq in E. rewrite E. constructor.
      * constructor.
    + constructor.
Qed.

Lemma env_steps_spec (evs : list env_event) (w : world) :
  clock (fold_left env_step evs w) = clock w /\
  exists d, trace (fold_left env_step evs w) = trace w ++ d /\ main d = [] /\
            isr_effect (ack_flag w) (ack_flag (fold_left env_step evs w))
              (bridge d).
Proof.
  revert w. induction evs as [|e evs IH]; intros w; cbn [fold_left].
  - split; [reflexivity|]. exists []. rewrite app_nil_r.
    repeat split. constructor.
  - destruct (env_step_spec w e) as (C1 & d1 & T1 & M1 & I1).
    destruct (IH (env_step w e)) as (C2 & d2 & T2 & M2 & I2).
    split; [congruence|].
    exists (d1 ++ d2). rewrite T2, T1, app_assoc, main_app, bridge_app, M1, M2.
    repeat split. eapply isr_effect_trans; eauto.
Qed.

Section Facts.

Variable char_signed : bool.
Variable sched : schedule.

Lemma tick_clock (w : world) : clock (tick sched w) = S (clock w).
Proof. reflexivity. Qed.

Lemma tick_seg (w : world) :
  exists b, seg w (tick sched w) [] b /\
            isr_effect (ack_flag w) (ack_flag (tick sched w)) b.
Proof.
  destruct (env_steps_spec (sched (clock w)) w) as (_ & d & T & Mn & I).
  exists (bridge d). split; [|exact I].
  exists d. cbn. auto.
Qed.

Lemma tick_flag_zero (w : world) :
  ack_flag w = 0 -> ack_flag (tick sched w) = 0.
Proof.
  intros H. destruct (tick_seg w) as (b & _ & I).
  rewrite H in I. apply isr_effect_zero in I. tauto.
Qed.

(** ** The monad *)

Lemma bind_inv {A B : Type} (m : M A) (k : A -> M B) (w : world) x :
  bind m k w = Some x -> exists a w1, m w = Some (a, w1) /\ k a w1 = Some x.
Proof.
  unfold bind. destruct (m w) as [[a w1]|]; [|discriminate].
  intros H. exists a, w1. auto.
Qed.

Lemma bind_some {A B : Type} (m : M A) (k : A -> M B) (w w1 : world) a :
  m w = Some (a, w1) -> bind m k w = k a w1.
Proof. unfold bind. intros ->. reflexivity. Qed.

Lemma lift_inv {A : Type} (s : St A) (w w' : world) (a : A) :
  lift s w = Some (a, w') -> s w = (a, w').
Proof. unfold lift. congruence. Qed.

(** ** Atomic steps *)

Lemma step_seg (w : world) (e : event) (h : regs) :
  is_main e = true -> bridge_of e = [] ->
  exists b, seg w (log e (with_hw h (tick sched w))) [e] b /\
            isr_effect (ack_flag w) (ack_flag (tick sched w)) b.
Proof.
  intros Hm Hb. destruct (tick_seg w) as (b & (d & T & Md & Bd) & I).
  exists b. split; [|exact I].
  exists (d ++ [e]). cbn [log with_hw trace].
  rewrite T, app_assoc, main_app, bridge_app, Md, Bd.
  unfold main, bridge. cbn. rewrite Hm, Hb, !app_nil_r. auto.
Qed.

Lemma with_hw_same (w : world) : with_hw (hw w) w = w.
Proof. destruct w; reflexivity. Qed.

Lemma read_reg_run (r : reg) (w : world) :
  exists b, seg w (snd (read_reg sched r w)) [EvRead r (fst (read_reg sched r w))] b /\
            isr_effect (ack_flag w) (ack_flag (snd (read_reg sched r w))) b /\
            fst (read_reg sched r w) = byte_of (hw (snd (read_reg sched r w))) r.
Proof.
  unfold read_reg; cbn [fst snd].
  destruct (step_seg w (EvRead r (byte_of (hw (tick sched w)) r))
              (hw (tick sched w)) eq_refl eq_refl) as (b & S & I).
  rewrite with_hw_same in S. exists b. auto.
Qed.

Lemma write_reg_run (r : reg) (v : Z) (w : world) :
  exists b, seg w (snd (write_reg sched r v w)) [EvWrite r (to_uchar v)] b /\
            isr_effect (ack_flag w) (ack_flag (snd (write_reg sched r v w))) b /\
            byte_of (hw (snd (write_reg sched r v w))) r = to_uchar v.
Proof.
  unfold write_reg; cbn [fst snd].
  destruct (step_seg w (EvWrite r (to_uchar v))
              (set_reg r (to_uchar v) (hw (tick sched w))) eq_refl eq_refl)
    as (b & S & I).
  exists b. repeat split; auto. destruct r; reflexivity.
Qed.

Lemma read_con2_run (c : con2bit) (w : world) :
  exists b, seg w (snd (read_con2 sched c w))
              [EvBitRead c (fst (read_con2 sched c w))] b /\
            isr_effect (ack_flag w) (ack_flag (snd (read_con2 sched c w))) b /\
            fst (read_con2 sched c w) = get_con2 c (hw (snd (read_con2 sched c w))).
Proof.
  unfold read_con2; cbn [fst snd].
  destruct (step_seg w (EvBitRead c (get_con2 c (hw (tick sched w))))
              (hw (tick sched w)) eq_refl eq_refl) as (b & S & I).
  rewrite with_hw_same in S. exists b. auto.
Qed.

Lemma get_set_con2 (c : con2bit) (v : bool) (h : regs) :
  get_con2 c (set_con2 c v h) = Z.b2z v.
Proof.
  unfold get_con2, set_con2. cbn [set_reg sspcon2].
  assert (0 <= bitpos c) by (destruct c; cbn; lia).
  destruct v.
  - rewrite Z.setbit_eq by assumption. reflexivity.
  - rewrite Z.clearbit_eq by assumption. reflexivity.
Qed.

Lemma write_con2_run (c : con2bit) (v : bool) (w : world) :
  exists b, seg w (snd (write_con2 sched c v w)) [EvBitWrite c v] b /\
            isr_effect (ack_flag w) (ack_flag (snd (write_con2 sched c v w))) b /\
            get_con2 c (hw (snd (write_con2 sched c v w))) = Z.b2z v.
Proof.
  unfold write_con2; cbn [fst snd].
  destruct (step_seg w (EvBitWrite c v) (set_con2 c v (hw (tick sched w)))
              eq_refl eq_refl) as (b & S & I).
  exists b. repeat split; auto. apply get_set_con2.
Qed.

Lemma write_sfr_run (s : sfrbit) (v : bool) (w : world) :
  exists b, seg w (snd (write_sfr sched s v w)) [EvSfrWrite s v] b /\
            isr_effect (ack_flag w) (ack_flag (snd (write_sfr sched s v w))) b /\
            bit_of (hw (snd (write_sfr sched s v w))) s = v.
Proof.
  unfold write_sfr; cbn [fst snd].
  destruct (step_seg w (EvSfrWrite s v) (set_bit s v (hw (tick sched w)))
              eq_refl eq_refl) as (b & S & I).
  exists b. repeat split; auto. destruct s; reflexivity.
Qed.

Lemma store_ack_flag_run (w : world) :
  exists b, seg w (snd (store_ack_flag sched 1 w)) [EvFlagWrite 1] (b ++ [Arm]) /\
            isr_effect (ack_flag w) (ack_flag (tick sched w)) b /\
            ack_flag (snd (store_ack_flag sched 1 w)) = 1.
Proof.
  unfold store_ack_flag; cbn [fst snd].
  destruct (tick_seg w) as (b & (d & T & Md & Bd) & I).
  exists b. repeat split; auto.
  exists (d ++ [EvFlagWrite 1]). cbn [log with_flag trace].
  rewrite T, app_assoc, main_app, bridge_app, Md, Bd. auto.
Qed.

Lemma load_ack_flag_run (w : world) :
  exists b, seg w (snd (load_ack_flag sched w))
              [EvFlagRead (fst (load_ack_flag sched w))]
              (b ++ if fst (load_ack_flag sched w) =? 0 then [Return] else []) /\
            isr_effect (ack_flag w) (fst (load_ack_flag sched w)) b /\
            ack_flag (snd (load_ack_flag sched w)) = fst (load_ack_flag sched w).
Proof.
  unfold load_ack_flag; cbn [fst snd].
  destruct (tick_seg w) as (b & (d & T & Md & Bd) & I).
  exists b. repeat split; auto.
  exists (d ++ [EvFlagRead (ack_flag (tick sched w))]). cbn [log trace].
  rewrite T, app_assoc, main_app, bridge_app, Md, Bd.
  unfold bridge. cbn. rewrite app_nil_r. auto.
Qed.

Lemma poll_run (w : world) :
  exists b, seg w (snd (poll sched w)) (poll_events (fst (poll sched w))) b /\
            isr_effect (ack_flag w) (ack_flag (snd (poll sched w))) b.
Proof.
  unfold poll.
  destruct (read_reg_run SSPCON2 w) as (b1 & S1 & I1 & _).
  destruct (read_reg sched SSPCON2 w) as [c w1]; cbn [fst snd] in *.
  destruct (read_reg_run SSPSTAT w1) as (b2 & S2 & I2 & _).
  destruct (read_reg sched SSPSTAT w1) as [s w2]; cbn [fst snd] in *.
  exists (b1 ++ b2). split.
  - apply (seg_trans _ _ _ _ _ _ _ S1 S2).
  - eapply isr_effect_trans; eauto.
Qed.

(** ** The idle-wait *)

Lemma check_idle_S (fuel : nat) (mask : Z) (w : world) :
  i2c_check_idle sched (S fuel) mask w =
  if busy mask (fst (poll sched w)) =? 0 then Some (tt, snd (poll sched w))
  else i2c_check_idle sched fuel mask (snd (poll sched w)).
Proof.
  cbn [i2c_check_idle]. unfold bind, lift.
  destruct (poll sched w) as [cs w1]; cbn [fst snd].
  destruct (busy mask cs =? 0); reflexivity.
Qed.

Lemma check_idle_run (fuel : nat) (mask : Z) (w w' : world) (u : unit) :
  i2c_check_idle sched fuel mask w = Some (u, w') ->
  exists m b, seg w w' m b /\ idle_wait mask m /\
              isr_effect (ack_flag w) (ack_flag w') b.
Proof.
  revert w. induction fuel as [|fuel IH]; intros w H; [discriminate|].
  rewrite check_idle_S in H.
  destruct (poll_run w) as (b1 & S1 & I1).
  destruct (busy mask (fst (poll sched w)) =? 0) eqn:E.
  - injection H as _ <-. apply Z.eqb_eq in E.
    exists (poll_events (fst (poll sched w))), b1. repeat split; auto.
    exists [], (fst (poll sched w)). cbn [flat_map app]. auto.
  - apply Z.eqb_neq in E.
    destruct (IH _ H) as (m & b & S2 & (pre & last & -> & Fp & Fl) & I2).
    exists (poll_events (fst (poll sched w)) ++
            (flat_map poll_events pre ++ poll_events last)), (b1 ++ b).
    repeat split.
    + eapply seg_trans; eauto.
    + exists (fst (poll sched w) :: pre), last. cbn [flat_map].
      rewrite <- app_assoc. auto.
    + eapply isr_effect_trans; eauto.
Qed.

Lemma snapshot_S (n : nat) (w : world) :
  snapshot sched (S n) w = snapshot sched n (snd (poll sched w)).
Proof. reflexivity. Qed.

(** The idle-wait returns right after the first evaluation that finds the
    condition zero, when the bound allows that many evaluations. *)
Lemma check_idle_first (mask : Z) (n : nat) :
  forall (w : world) (fuel : nat),
    busy mask (snapshot sched n w) = 0 ->
    (forall k, (k < n)%nat -> busy mask (snapshot sched k w) <> 0) ->
    ((n < fuel)%nat ->
     i2c_check_idle sched fuel mask w = Some (tt, after_polls sched (S n) w)) /\
    ((fuel <= n)%nat -> i2c_check_idle sched fuel mask w = None).
Proof.
  induction n as [|n IH]; intros w fuel Hz Hb.
  - split; intros Hf.
    + destruct fuel as [|fuel]; [lia|]. rewrite check_idle_S.
      unfold snapshot in Hz. cbn [after_polls] in *. rewrite Hz. reflexivity.
    + assert (fuel = O) by lia. subst. reflexivity.
  - assert (H0 : busy mask (fst (poll sched w)) <> 0)
      by (apply (Hb O); lia).
    apply Z.eqb_neq in H0.
    destruct (IH (snd (poll sched w)) (pred fuel)) as [IH1 IH2].
    + rewrite <- snapshot_S. exact Hz.
    + intros k Hk. rewrite <- snapshot_S. apply Hb. lia.
    + split; intros Hf.
      * destruct fuel as [|fuel]; [lia|]. rewrite check_idle_S, H0.
        cbn [pred] in IH1. rewrite IH1 by lia. reflexivity.
      * destruct fuel as [|fuel]; [reflexivity|]. rewrite check_idle_S, H0.
        cbn [pred] in IH2. apply IH2. lia.
Qed.

Lemma check_idle_never (mask : Z) (fuel : nat) :
  forall w : world,
    (forall n, busy mask (snapshot sched n w) <> 0) ->
    i2c_check_idle sched fuel mask w = None.
Proof.
  induction fuel as [|fuel IH]; intros w Hb; [reflexivity|].
  rewrite check_idle_S.
  pose proof (Hb O) as H0. unfold snapshot in H0. cbn [after_polls] in H0.
  apply Z.eqb_neq in H0. rewrite H0.
  apply IH. intros n. rewrite <- snapshot_S. apply Hb.
Qed.

Lemma check_idle_inv (mask : Z) (fuel : nat) :
  forall (w w' : world) (u : unit),
    i2c_check_idle sched fuel mask w = Some (u, w') ->
    exists n, (n < fuel)%nat /\ busy mask (snapshot sched n w) = 0 /\
              (forall k, (k < n)%nat -> busy mask (snapshot sched k w) <> 0) /\
              w' = after_polls sched (S n) w.
Proof.
  induction fuel as [|fuel IH]; intros w w' u H; [discriminate|].
  rewrite check_idle_S in H.
  destruct (busy mask (fst (poll sched w)) =? 0) eqn:E.
  - injection H as _ <-. apply Z.eqb_eq in E. exists O.
    repeat split; auto; [lia | intros k Hk; lia].
  - apply Z.eqb_neq in E. destruct (IH _ _ _ H) as (n & Hn & Hz & Hb & ->).
    exists (S n). repeat split; auto; [lia|].
    intros [|k] Hk; [exact E|]. rewrite snapshot_S. apply Hb. lia.
Qed.

Lemma check_idle_mono (mask : Z) (fuel fuel' : nat) (w : world) x :
  i2c_check_idle sched fuel mask w = Some x -> (fuel <= fuel')%nat ->
  i2c_check_idle sched fuel' mask w = Some x.
Proof.
  intros H Hle. destruct x as [[] w'].
  destruct (check_idle_inv _ _ _ _ _ H) as (n & Hn & Hz & Hb & ->).
  apply (check_idle_first mask n w fuel' Hz Hb). lia.
Qed.

(** A busy-wait that can end does end, at the least index. *)
Lemma first_zero (f : nat -> Z) (n : nat) :
  f n = 0 ->
  exists k, (k <= n)%nat /\ f k = 0 /\ forall j, (j < k)%nat -> f j <> 0.
Proof.
  induction n as [n IH] using lt_wf_ind. intros Hn.
  destruct (existsb (fun j => f (Z.to_nat j) =? 0)
              (map Z.of_nat (seq 0 n))) eqn:E.
  - apply existsb_exists in E. destruct E as (j & Hin & Hj).
    apply in_map_iff in Hin. destruct Hin as (i & <- & Hi).
    apply in_seq in Hi. rewrite Nat2Z.id in Hj. apply Z.eqb_eq in Hj.
    destruct (IH i ltac:(lia) Hj) as (k & Hk & Hz & Hb).
    exists k. repeat split; auto. lia.
  - exists n. repeat split; auto. intros j Hj Hz.
    assert (existsb (fun j => f (Z.to_nat j) =? 0)
              (map Z.of_nat (seq 0 n)) = true); [|congruence].
    apply existsb_exists. exists (Z.of_nat j). split.
    + apply in_map, in_seq. lia.
    + rewrite Nat2Z.id. apply Z.eqb_eq. exact Hz.
Qed.

Lemma check_idle_live (mask : Z) (w : world) :
  bus_settles sched ->
  exists n w', forall fuel, (n <= fuel)%nat ->
                            i2c_check_idle sched fuel mask w = Some (tt, w').
Proof.
  intros Hs. destruct (Hs mask w) as (n & Hn).
  destruct (first_zero (fun k => busy mask (snapshot sched k w)) n Hn)
    as (k & _ & Hz & Hb).
  exists (S k), (after_polls sched (S k) w). intros fuel Hf.
  apply (check_idle_first mask k w fuel Hz Hb). lia.
Qed.

(** ** The wait for the interrupt *)

Lemma wait_ack_S (fuel : nat) (w : world) :
  wait_ack sched (S fuel) w =
  if fst (load_ack_flag sched w) =? 0
  then Some (tt, snd (load_ack_flag sched w))
  else wait_ack sched fuel (snd (load_ack_flag sched w)).
Proof.
  cbn [wait_ack]. unfold bind, lift.
  destruct (load_ack_flag sched w) as [v w1]; cbn [fst snd].
  destruct (v =? 0); reflexivity.
Qed.

Lemma wait_ack_run (fuel : nat) (w w' : world) (u : unit) :
  wait_ack sched fuel w = Some (u, w') ->
  exists m b, seg w w' m (b ++ [Return]) /\ flag_wait m /\
              isr_effect (ack_flag w) 0 b /\ ack_flag w' = 0.
Proof.
  revert w. induction fuel as [|fuel IH]; intros w H; [discriminate|].
  rewrite wait_ack_S in H.
  destruct (load_ack_flag_run w) as (b1 & S1 & I1 & F1).
  destruct (fst (load_ack_flag sched w) =? 0) eqn:E.
  - injection H as _ <-. apply Z.eqb_eq in E. rewrite E in *.
    exists [EvFlagRead 0], b1. repeat split; auto.
    exists []. cbn. auto.
  - apply Z.eqb_neq in E.
    destruct (IH _ H) as (m & b & S2 & (pre & -> & Fp) & I2 & F2).
    rewrite app_nil_r in S1. rewrite F1 in I2.
    exists ([EvFlagRead (fst (load_ack_flag sched w))] ++
            (map EvFlagRead pre ++ [EvFlagRead 0])), (b1 ++ b).
    repeat split; auto.
    + rewrite <- app_assoc. eapply seg_trans; eauto.
    + exists (fst (load_ack_flag sched w) :: pre). cbn. auto.
    + eapply isr_effect_trans; eauto.
Qed.

Lemma flag_seen_S (n : nat) (w : world) :
  flag_seen sched (S n) w = flag_seen sched n (snd (load_ack_flag sched w)).
Proof. reflexivity. Qed.

Lemma wait_ack_first (n : nat) :
  forall (w : world) (fuel : nat),
    flag_seen sched n w = 0 ->
    (forall k, (k < n)%nat -> flag_seen sched k w <> 0) ->
    ((n < fuel)%nat ->
     wait_ack sched fuel w = Some (tt, after_loads sched (S n) w)) /\
    ((fuel <= n)%nat -> wait_ack sched fuel w = None).
Proof.
  induction n as [|n IH]; intros w fuel Hz Hb.
  - split; intros Hf.
    + destruct fuel as [|fuel]; [lia|]. rewrite wait_ack_S.
      unfold flag_seen in Hz. cbn [after_loads] in *. rewrite Hz. reflexivity.
    + assert (fuel = O) by lia. subst. reflexivity.
  - assert (H0 : fst (load_ack_flag sched w) <> 0) by (apply (Hb O); lia).
    apply Z.eqb_neq in H0.
    destruct (IH (snd (load_ack_flag sched w)) (pred fuel)) as [IH1 IH2].
    + rewrite <- flag_seen_S. exact Hz.
    + intros k Hk. rewrite <- flag_seen_S. apply Hb. lia.
    + split; intros Hf.
      * destruct fuel as [|fuel]; [lia|]. rewrite wait_ack_S, H0.
        cbn [pred] in IH1. rewrite IH1 by lia. reflexivity.
      * destruct fuel as [|fuel]; [reflexivity|]. rewrite wait_ack_S, H0.
        cbn [pred] in IH2. apply IH2. lia.
Qed.

Lemma wait_ack_never (fuel : nat) :
  forall w : world,
    (forall n, flag_seen sched n w <> 0) -> wait_ack sched fuel w = None.
Proof.
  induction fuel as [|fuel IH]; intros w Hb; [reflexivity|].
  rewrite wait_ack_S.
  pose proof (Hb O) as H0. unfold flag_seen in H0. cbn [after_loads] in H0.
  apply Z.eqb_neq in H0. rewrite H0.
  apply IH. intros n. rewrite <- flag_seen_S. apply Hb.
Qed.

Lemma wait_ack_inv (fuel : nat) :
  forall (w w' : world) (u : unit),
    wait_ack sched fuel w = Some (u, w') ->
    exists n, (n < fuel)%nat /\ flag_seen sched n w = 0 /\
              (forall k, (k < n)%nat -> flag_seen sched k w <> 0) /\
              w' = after_loads sched (S n) w.
Proof.
  induction fuel as [|fuel IH]; intros w w' u H; [discriminate|].
  rewrite wait_ack_S in H.
  destruct (fst (load_ack_flag sched w) =? 0) eqn:E.
  - injection H as _ <-. apply Z.eqb_eq in E. exists O.
    repeat split; auto; [lia | intros k Hk; lia].
  - apply Z.eqb_neq in E. destruct (IH _ _ _ H) as (n & Hn & Hz & Hb & ->).
    exists (S n). repeat split; auto; [lia|].
    intros [|k] Hk; [exact E|]. rewrite flag_seen_S. apply Hb. lia.
Qed.

Lemma wait_ack_mono (fuel fuel' : nat) (w : world) x :
  wait_ack sched fuel w = Some x -> (fuel <= fuel')%nat ->
  wait_ack sched fuel' w = Some x.
Proof.
  intros H Hle. destruct x as [[] w'].
  destruct (wait_ack_inv _ _ _ _ H) as (n & Hn & Hz & Hb & ->).
  apply (wait_ack_first n w fuel' Hz Hb). lia.
Qed.

Lemma wait_ack_live (w : world) :
  signal_arrives sched -> ack_flag w = 0 \/ ack_flag w = 1 ->
  exists n w', forall fuel, (n <= fuel)%nat ->
                            wait_ack sched fuel w = Some (tt, w').
Proof.
  intros Hs Hf.
  assert (Hn : exists n, flag_seen sched n w = 0).
  { destruct Hf as [Hf|Hf]; [|auto].
    exists O. unfold flag_seen, load_ack_flag. cbn.
    apply tick_flag_zero, Hf. }
  destruct Hn as (n & Hn).
  destruct (first_zero (fun k => flag_seen sched k w) n Hn)
    as (k & _ & Hz & Hb).
  exists (S k), (after_loads sched (S k) w). intros fuel Hfu.
  apply (wait_ack_first k w fuel Hz Hb). lia.
Qed.

(** ** The transmit phase: arm the flag, load SSPBUF, wait, read ACKSTAT *)

Lemma transmit_run (byte : Z) (fuel : nat) (w w' : world) (r : Z) :
  (lift (store_ack_flag sched 1) ;;;
   lift (write_reg sched SSPBUF byte) ;;;
   wait_ack sched fuel ;;;
   lift (read_con2 sched ACKSTAT)) w = Some (r, w') ->
  exists m b,
    seg w w' ([EvFlagWrite 1; EvWrite SSPBUF (to_uchar byte)] ++ m ++
              [EvBitRead ACKSTAT r]) b /\
    flag_wait m /\
    r = get_con2 ACKSTAT (hw w') /\
    ack_flag w' = 0 /\
    (ack_flag w = 0 -> b = [Arm; Clear; Return]).
Proof.
  intros H.
  apply bind_inv in H as (u1 & w1 & H1 & H). apply lift_inv in H1.
  apply bind_inv in H as (u2 & w2 & H2 & H). apply lift_inv in H2.
  apply bind_inv in H as (u3 & w3 & H3 & H). apply lift_inv in H.
  destruct (store_ack_flag_run w) as (b1 & S1 & I1 & F1).
  rewrite H1 in S1, F1; cbn [fst snd] in S1, F1.
  destruct (write_reg_run SSPBUF byte w1) as (b2 & S2 & I2 & _).
  rewrite H2 in S2, I2; cbn [fst snd] in S2, I2.
  destruct (wait_ack_run _ _ _ _ H3) as (m & b3 & S3 & W3 & I3 & F3).
  destruct (read_con2_run ACKSTAT w3) as (b4 & S4 & I4 & R4).
  rewrite H in S4, I4, R4; cbn [fst snd] in S4, I4, R4.
  rewrite F1 in I2. rewrite F3 in I4.
  apply isr_effect_zero in I4 as [F4 ->].
  pose proof (isr_effect_armed _ (isr_effect_trans _ _ _ _ _ I2 I3)) as B23.
  pose proof (seg_trans _ _ _ _ _ _ _
                (seg_trans _ _ _ _ _ _ _
                   (seg_trans _ _ _ _ _ _ _ S1 S2) S3) S4) as S.
  match type of S with seg _ _ _ ?bb => exists m, bb end.
  split; [|repeat split; auto].
  - eapply seg_eq; [exact S| |reflexivity].
    rewrite <- !app_assoc. reflexivity.
  - intros F0. rewrite F0 in I1. apply isr_effect_zero in I1 as [_ ->].
    rewrite app_nil_r, <- !app_assoc. cbn [app].
    change (Arm :: b2 ++ b3 ++ [Return]) with ([Arm] ++ b2 ++ b3 ++ [Return]).
    rewrite (app_assoc b2 b3), B23. reflexivity.
Qed.

Lemma transmit_live (byte : Z) (w : world) :
  signal_arrives sched ->
  exists n r w', forall fuel, (n <= fuel)%nat ->
    (lift (store_ack_flag sched 1) ;;;
     lift (write_reg sched SSPBUF byte) ;;;
     wait_ack sched fuel ;;;
     lift (read_con2 sched ACKSTAT)) w = Some (r, w').
Proof.
  intros Hs.
  destruct (store_ack_flag sched 1 w) as [u1 w1] eqn:H1.
  destruct (write_reg sched SSPBUF byte w1) as [u2 w2] eqn:H2.
  destruct (store_ack_flag_run w) as (b1 & _ & _ & F1).
  rewrite H1 in F1; cbn [snd] in F1.
  destruct (write_reg_run SSPBUF byte w1) as (b2 & _ & I2 & _).
  rewrite H2 in I2; cbn [snd] in I2. rewrite F1 in I2.
  destruct (wait_ack_live w2 Hs) as (n & w3 & H3).
  { apply isr_effect_cases in I2. tauto. }
  destruct (read_con2 sched ACKSTAT w3) as [r w4] eqn:H4.
  exists n, r, w4. intros fuel Hf.
  unfold bind at 1. unfold lift at 1. rewrite H1.
  unfold bind at 1. unfold lift at 1. rewrite H2.
  rewrite (bind_some _ _ _ _ _ (H3 fuel Hf)).
  unfold lift. rewrite H4. reflexivity.
Qed.

(** ** Conversions *)

Lemma to_uchar_idem (x : Z) : to_uchar (to_uchar x) = to_uchar x.
Proof. unfold to_uchar. apply Z.mod_mod. lia. Qed.

Lemma to_uchar_to_schar (x : Z) : to_uchar (to_schar x) = to_uchar x.
Proof.
  unfold to_uchar, to_schar.
  rewrite Zminus_mod, Z.mod_mod by lia.
  rewrite <- Zminus_mod. f_equal. lia.
Qed.

Lemma to_uchar_to_char (x : Z) : to_uchar (to_char char_signed x) = to_uchar x.
Proof.
  unfold to_char. destruct char_signed.
  - apply to_uchar_to_schar.
  - apply to_uchar_idem.
Qed.

Lemma to_uchar_range (x : Z) : 0 <= to_uchar x < 256.
Proof. unfold to_uchar. apply Z.mod_pos_bound. lia. Qed.

Lemma write_reg_to_uchar (r : reg) (v v' : Z) :
  to_uchar v = to_uchar v' -> write_reg sched r v = write_reg sched r v'.
Proof. unfold write_reg. intros ->. reflexivity. Qed.

Lemma address_byte (adrs rw : Z) :
  to_uchar (Z.shiftl adrs 1 + rw) = (2 * adrs + rw) mod 256.
Proof.
  unfold to_uchar. rewrite Z.shiftl_mul_pow2 by lia.
  f_equal. change (2 ^ 1) with 2. lia.
Qed.

(** ** i2c_start and i2c_rstart are the address phase *)

Lemma i2c_start_address_phase (fuel : nat) (adrs rw : Z) :
  i2c_start sched fuel adrs rw = address_phase sched SEN fuel adrs rw.
Proof.
  unfold i2c_start, address_phase. rewrite address_byte. reflexivity.
Qed.

Lemma i2c_rstart_address_phase (fuel : nat) (adrs rw : Z) :
  i2c_rstart char_signed sched fuel adrs rw =
  address_phase sched RSEN fuel adrs rw.
Proof.
  unfold i2c_rstart, address_phase.
  rewrite (write_reg_to_uchar SSPBUF
             (to_char char_signed (Z.shiftl adrs 1 + rw))
             ((2 * adrs + rw) mod 256)); [reflexivity|].
  rewrite to_uchar_to_char, address_byte.
  unfold to_uchar. rewrite Z.mod_mod by lia. reflexivity.
Qed.

(** ** The operations, event by event *)

Lemma address_phase_run (c : con2bit) (fuel : nat) (adrs rw : Z)
      (w w' : world) (r : Z) :
  address_phase sched c fuel adrs rw w = Some (r, w') ->
  exists m1 m2 m3 b,
    seg w w' (m1 ++ [EvBitWrite c true] ++ m2 ++
              [EvFlagWrite 1; EvWrite SSPBUF ((2 * adrs + rw) mod 256)] ++
              m3 ++ [EvBitRead ACKSTAT r]) b /\
    idle_wait 5 m1 /\ idle_wait 5 m2 /\ flag_wait m3 /\
    r = get_con2 ACKSTAT (hw w') /\
    ack_flag w' = 0 /\
    (ack_flag w = 0 -> b = [Arm; Clear; Return]).
Proof.
  intros H. unfold address_phase in H.
  apply bind_inv in H as (u1 & w1 & H1 & H).
  apply bind_inv in H as (u2 & w2 & H2 & H). apply lift_inv in H2.
  apply bind_inv in H as (u3 & w3 & H3 & H).
  destruct (check_idle_run _ _ _ _ _ H1) as (m1 & b1 & S1 & W1 & I1).
  destruct (write_con2_run c true w1) as (b2 & S2 & I2 & _).
  rewrite H2 in S2, I2; cbn [snd] in S2, I2.
  destruct (check_idle_run _ _ _ _ _ H3) as (m2 & b3 & S3 & W3 & I3).
  destruct (transmit_run _ _ _ _ _ H) as (m3 & b4 & S4 & W4 & R4 & F4 & B4).
  pose proof (seg_trans _ _ _ _ _ _ _
                (seg_trans _ _ _ _ _ _ _
                   (seg_trans _ _ _ _ _ _ _ S1 S2) S3) S4) as S.
  match type of S with seg _ _ _ ?bb => exists m1, m2, m3, bb end.
  repeat split; auto.
  - eapply seg_eq; [exact S| |reflexivity].
    rewrite <- !app_assoc. unfold to_uchar. rewrite Z.mod_mod by lia.
    reflexivity.
  - intros F0. rewrite F0 in I1. apply isr_effect_zero in I1 as [F1 ->].
    rewrite F1 in I2. apply isr_effect_zero in I2 as [F2 ->].
    rewrite F2 in I3. apply isr_effect_zero in I3 as [F3 ->].
    rewrite (B4 F3). reflexivity.
Qed.

Lemma i2c_send_run (fuel : nat) (dt : Z) (w w' : world) (r : Z) :
  i2c_send sched fuel dt w = Some (r, w') ->
  exists m1 m2 b,
    seg w w' (m1 ++ [EvFlagWrite 1; EvWrite SSPBUF (to_uchar dt)] ++
              m2 ++ [EvBitRead ACKSTAT r]) b /\
    idle_wait 5 m1 /\ flag_wait m2 /\
    r = get_con2 ACKSTAT (hw w') /\
    ack_flag w' = 0 /\
    (ack_flag w = 0 -> b = [Arm; Clear; Return]).
Proof.
  intros H. unfold i2c_send in H.
  apply bind_inv in H as (u1 & w1 & H1 & H).
  destruct (check_idle_run _ _ _ _ _ H1) as (m1 & b1 & S1 & W1 & I1).
  destruct (transmit_run _ _ _ _ _ H) as (m2 & b2 & S2 & W2 & R2 & F2 & B2).
  pose proof (seg_trans _ _ _ _ _ _ _ S1 S2) as S.
  match type of S with seg _ _ _ ?bb => exists m1, m2, bb end.
  repeat split; auto.
  intros F0. rewrite F0 in I1. apply isr_effect_zero in I1 as [F1 ->].
  rewrite (B2 F1). reflexivity.
Qed.

Lemma i2c_stop_run (fuel : nat) (w w' : world) (u : unit) :
  i2c_stop sched fuel w = Some (u, w') ->
  exists m b,
    seg w w' (m ++ [EvBitWrite PEN true]) b /\
    idle_wait 5 m /\
    isr_effect (ack_flag w) (ack_flag w') b /\
    get_con2 PEN (hw w') = 1.
Proof.
  intros H. unfold i2c_stop in H.
  apply bind_inv in H as (u1 & w1 & H1 & H). apply lift_inv in H.
  destruct (check_idle_run _ _ _ _ _ H1) as (m1 & b1 & S1 & W1 & I1).
  destruct (write_con2_run PEN true w1) as (b2 & S2 & I2 & G2).
  rewrite H in S2, I2, G2; cbn [snd] in S2, I2, G2.
  exists m1, (b1 ++ b2). repeat split; auto.
  - eapply seg_trans; eauto.
  - eapply isr_effect_trans; eauto.
Qed.

Lemma i2c_receive_run (fuel : nat) (ack : Z) (w w' : world) (r : Z) :
  i2c_receive char_signed sched fuel ack w = Some (r, w') ->
  exists m1 m2 m3 byte b,
    seg w w' (m1 ++ [EvBitWrite RCEN true] ++ m2 ++ [EvRead SSPBUF byte] ++
              m3 ++ [EvBitWrite ACKDT (Z.odd ack); EvBitWrite ACKEN true]) b /\
    idle_wait 5 m1 /\ idle_wait 4 m2 /\ idle_wait 5 m3 /\
    r = to_char char_signed byte /\
    isr_effect (ack_flag w) (ack_flag w') b /\
    get_con2 ACKEN (hw w') = 1.
Proof.
  intros H. unfold i2c_receive in H.
  apply bind_inv in H as (u1 & w1 & H1 & H).
  apply bind_inv in H as (u2 & w2 & H2 & H). apply lift_inv in H2.
  apply bind_inv in H as (u3 & w3 & H3 & H).
  apply bind_inv in H as (dt & w4 & H4 & H). apply lift_inv in H4.
  apply bind_inv in H as (u5 & w5 & H5 & H).
  apply bind_inv in H as (u6 & w6 & H6 & H). apply lift_inv in H6.
  apply bind_inv in H as (u7 & w7 & H7 & H). apply lift_inv in H7.
  unfold ret in H. injection H as <- <-.
  destruct (check_idle_run _ _ _ _ _ H1) as (m1 & b1 & S1 & W1 & I1).
  destruct (write_con2_run RCEN true w1) as (b2 & S2 & I2 & _).
  rewrite H2 in S2, I2; cbn [snd] in S2, I2.
  destruct (check_idle_run _ _ _ _ _ H3) as (m2 & b3 & S3 & W3 & I3).
  destruct (read_reg_run SSPBUF w3) as (b4 & S4 & I4 & _).
  rewrite H4 in S4, I4; cbn [fst snd] in S4, I4.
  destruct (check_idle_run _ _ _ _ _ H5) as (m3 & b5 & S5 & W5 & I5).
  destruct (write_con2_run ACKDT (Z.odd ack) w5) as (b6 & S6 & I6 & _).
  rewrite H6 in S6, I6; cbn [snd] in S6, I6.
  destruct (write_con2_run ACKEN true w6) as (b7 & S7 & I7 & G7).
  rewrite H7 in S7, I7, G7; cbn [snd] in S7, I7, G7.
  pose proof (seg_trans _ _ _ _ _ _ _
               (seg_trans _ _ _ _ _ _ _
                 (seg_trans _ _ _ _ _ _ _
                   (seg_trans _ _ _ _ _ _ _
                     (seg_trans _ _ _ _ _ _ _
                       (seg_trans _ _ _ _ _ _ _ S1 S2) S3) S4) S5) S6) S7)
    as S.
  match type of S with seg _ _ _ ?bb => exists m1, m2, m3, dt, bb end.
  repeat split; auto.
  - eapply seg_eq; [exact S| |reflexivity].
    rewrite <- !app_assoc. reflexivity.
  - repeat (eapply isr_effect_trans; [|eassumption]). assumption.
Qed.

Lemma i2c_init_master_run (w : world) :
  exists w' b,
    i2c_init_master sched w = Some (tt, w') /\
    seg w w' [EvWrite SSPCON1 0x28; EvWrite SSPSTAT 0; EvWrite SSPADD 0x77;
              EvSfrWrite SSPIE true; EvSfrWrite BCLIE true;
              EvSfrWrite PEIE true; EvSfrWrite GIE true;
              EvSfrWrite SSPIF false; EvSfrWrite BCLIF false] b /\
    isr_effect (ack_flag w) (ack_flag w') b.
Proof.
  unfold i2c_init_master, bind, lift.
  destruct (write_reg_run SSPCON1 0x28 w) as (b1 & S1 & I1 & _).
  destruct (write_reg sched SSPCON1 0x28 w) as [[] w1]; cbn [snd] in *.
  destruct (write_reg_run SSPSTAT 0 w1) as (b2 & S2 & I2 & _).
  destruct (write_reg sched SSPSTAT 0 w1) as [[] w2]; cbn [snd] in *.
  destruct (write_reg_run SSPADD 0x77 w2) as (b3 & S3 & I3 & _).
  destruct (write_reg sched SSPADD 0x77 w2) as [[] w3]; cbn [snd] in *.
  destruct (write_sfr_run SSPIE true w3) as (b4 & S4 & I4 & _).
  destruct (write_sfr sched SSPIE true w3) as [[] w4]; cbn [snd] in *.
  destruct (write_sfr_run BCLIE true w4) as (b5 & S5 & I5 & _).
  destruct (write_sfr sched BCLIE true w4) as [[] w5]; cbn [snd] in *.
  destruct (write_sfr_run PEIE true w5) as (b6 & S6 & I6 & _).
  destruct (write_sfr sched PEIE true w5) as [[] w6]; cbn [snd] in *.
  destruct (write_sfr_run GIE true w6) as (b7 & S7 & I7 & _).
  destruct (write_sfr sched GIE true w6) as [[] w7]; cbn [snd] in *.
  destruct (write_sfr_run SSPIF false w7) as (b8 & S8 & I8 & _).
  destruct (write_sfr sched SSPIF false w7) as [[] w8]; cbn [snd] in *.
  destruct (write_sfr_run BCLIF false w8) as (b9 & S9 & I9 & _).
  destruct (write_sfr sched BCLIF false w8) as [[] w9]; cbn [snd] in *.
  pose proof (seg_trans _ _ _ _ _ _ _
               (seg_trans _ _ _ _ _ _ _
                (seg_trans _ _ _ _ _ _ _
                 (seg_trans _ _ _ _ _ _ _
                  (seg_trans _ _ _ _ _ _ _
                   (seg_trans _ _ _ _ _ _ _
                    (seg_trans _ _ _ _ _ _ _
                     (seg_trans _ _ _ _ _ _ _ S1 S2) S3) S4) S5) S6) S7) S8)
               S9) as S.
  match type of S with seg _ _ _ ?bb => exists w9, bb end.
  repeat split; auto.
  repeat (eapply isr_effect_trans; [|eassumption]). assumption.
Qed.

(** ** The operations return when the peripheral and the interrupt path
    respond *)

Lemma address_phase_live (c : con2bit) (adrs rw : Z) (w : world) :
  bus_settles sched -> signal_arrives sched ->
  exists n r w', forall fuel, (n <= fuel)%nat ->
    address_phase sched c fuel adrs rw w = Some (r, w').
Proof.
  intros Hb Hs.
  destruct (check_idle_live 5 w Hb) as (n1 & w1 & H1).
  destruct (write_con2 sched c true w1) as [u2 w2] eqn:H2.
  destruct (check_idle_live 5 w2 Hb) as (n3 & w3 & H3).
  destruct (transmit_live ((2 * adrs + rw) mod 256) w3 Hs)
    as (n4 & r & w4 & H4).
  exists (Nat.max n1 (Nat.max n3 n4)), r, w4. intros fuel Hf.
  unfold address_phase.
  rewrite (bind_some _ _ _ _ _ (H1 fuel ltac:(lia))).
  unfold bind at 1. unfold lift at 1. rewrite H2.
  rewrite (bind_some _ _ _ _ _ (H3 fuel ltac:(lia))).
  apply H4. lia.
Qed.

Lemma i2c_send_live (dt : Z) (w : world) :
  bus_settles sched -> signal_arrives sched ->
  exists n r w', forall fuel, (n <= fuel)%nat ->
    i2c_send sched fuel dt w = Some (r, w').
Proof.
  intros Hb Hs.
  destruct (check_idle_live 5 w Hb) as (n1 & w1 & H1).
  destruct (transmit_live dt w1 Hs) as (n2 & r & w2 & H2).
  exists (Nat.max n1 n2), r, w2. intros fuel Hf.
  unfold i2c_send.
  rewrite (bind_some _ _ _ _ _ (H1 fuel ltac:(lia))).
  apply H2. lia.
Qed.

Lemma i2c_stop_live (w : world) :
  bus_settles sched ->
  exists n w', forall fuel, (n <= fuel)%nat ->
    i2c_stop sched fuel w = Some (tt, w').
Proof.
  intros Hb.
  destruct (check_idle_live 5 w Hb) as (n1 & w1 & H1).
  destruct (write_con2 sched PEN true w1) as [[] w2] eqn:H2.
  exists n1, w2. intros fuel Hf.
  unfold i2c_stop.
  rewrite (bind_some _ _ _ _ _ (H1 fuel Hf)).
  unfold lift. rewrite H2. reflexivity.
Qed.

Lemma i2c_receive_live (ack : Z) (w : world) :
  bus_settles sched ->
  exists n r w', forall fuel, (n <= fuel)%nat ->
    i2c_receive char_signed sched fuel ack w = Some (r, w').
Proof.
  intros Hb.
  destruct (check_idle_live 5 w Hb) as (n1 & w1 & H1).
  destruct (write_con2 sched RCEN true w1) as [u2 w2] eqn:H2.
  destruct (check_idle_live 4 w2 Hb) as (n3 & w3 & H3).
  destruct (read_reg sched SSPBUF w3) as [dt w4] eqn:H4.
  destruct (check_idle_live 5 w4 Hb) as (n5 & w5 & H5).
  destruct (write_con2 sched ACKDT (Z.odd ack) w5) as [u6 w6] eqn:H6.
  destruct (write_con2 sched ACKEN true w6) as [u7 w7] eqn:H7.
  exists (Nat.max n1 (Nat.max n3 n5)), (to_char char_signed dt), w7.
  intros fuel Hf. unfold i2c_receive.
  rewrite (bind_some _ _ _ _ _ (H1 fuel ltac:(lia))).
  unfold bind at 1. unfold lift at 1. rewrite H2.
  rewrite (bind_some _ _ _ _ _ (H3 fuel ltac:(lia))).
  unfold bind at 1. unfold lift at 1. rewrite H4.
  rewrite (bind_some _ _ _ _ _ (H5 fuel ltac:(lia))).
  unfold bind at 1. unfold lift at 1. rewrite H6.
  unfold bind at 1. unfold lift at 1. rewrite H7.
  reflexivity.
Qed.

(** ** The idle condition, bit by bit *)

Lemma land_1F_zero (c : Z) : Z.land c 0x1F = 0 <-> conditions_clear c.
Proof.
  split.
  - intros H b Hb.
    assert (Hp : 0 <= bitpos b < 5) by
      (cbn in Hb; repeat destruct Hb as [<-|Hb]; cbn; try lia; contradiction).
    assert (Ht : Z.testbit (Z.land c 0x1F) (bitpos b) = false)
      by (rewrite H; apply Z.bits_0).
    rewrite Z.land_spec in Ht.
    change 0x1F with (Z.ones 5) in Ht.
    rewrite Z.ones_spec_low, andb_true_r in Ht by lia. exact Ht.
  - intros H. apply Z.bits_inj'. intros n Hn.
    rewrite Z.land_spec, Z.bits_0. change 0x1F with (Z.ones 5).
    destruct (Z_lt_le_dec n 5) as [Hlt|Hge].
    + rewrite Z.ones_spec_low, andb_true_r by lia.
      assert (Hc : n = 0 \/ n = 1 \/ n = 2 \/ n = 3 \/ n = 4) by lia.
      destruct Hc as [->|[->|[->|[->| ->]]]].
      * apply (H SEN). cbn. auto.
      * apply (H RSEN). cbn. auto.
      * apply (H PEN). cbn. auto.
      * apply (H RCEN). cbn. auto 6.
      * apply (H ACKEN). cbn. auto 6.
    + rewrite Z.ones_spec_high, andb_false_r by lia. reflexivity.
Qed.

Lemma land_mask_zero (mask s : Z) : Z.land s mask = 0 <-> masked_clear mask s.
Proof.
  split.
  - intros H i Hi Hm.
    assert (Ht : Z.testbit (Z.land s mask) i = false)
      by (rewrite H; apply Z.bits_0).
    rewrite Z.land_spec, Hm, andb_true_r in Ht. exact Ht.
  - intros H. apply Z.bits_inj'. intros n Hn.
    rewrite Z.land_spec, Z.bits_0.
    destruct (Z.testbit mask n) eqn:Hm.
    + rewrite (H n Hn Hm). reflexivity.
    + apply andb_false_r.
Qed.

Lemma busy_zero_iff_idle (mask : Z) (cs : Z * Z) :
  busy mask cs = 0 <-> idle mask cs.
Proof.
  unfold busy, idle. rewrite Z.lor_eq_0_iff, land_1F_zero, land_mask_zero.
  reflexivity.
Qed.

(** ** The simulated peer responds *)

Lemma peer_tick_hw (acked : bool) (rx : Z) (w : world) :
  sspcon2 (hw (tick (peer acked rx) w)) = (if acked then 0 else 0x40) /\
  sspstat (hw (tick (peer acked rx) w)) = 0.
Proof.
  destruct w as [h f c t]; destruct h as [c1 c2 st ad bf si bc se be pe ge].
  unfold tick, peer; cbn [fold_left env_step]; unfold i2c_interrupt; cbn.
  destruct (f =? 1), bc; cbn; auto.
Qed.

Lemma peer_tick_flag (acked : bool) (rx : Z) (w : world) :
  ack_flag w = 1 -> ack_flag (tick (peer acked rx) w) = 0.
Proof.
  destruct w as [h f c t]; destruct h as [c1 c2 st ad bf si bc se be pe ge].
  cbn [ack_flag]. intros ->.
  unfold tick, peer; cbn [fold_left env_step]; unfold i2c_interrupt; cbn.
  destruct bc; reflexivity.
Qed.

Lemma peer_bus_settles (acked : bool) (rx : Z) : bus_settles (peer acked rx).
Proof.
  intros mask w. exists O.
  unfold snapshot, poll, read_reg; cbn [after_polls fst snd byte_of log hw].
  destruct (peer_tick_hw acked rx w) as [-> _].
  destruct (peer_tick_hw acked rx
              (log (EvRead SSPCON2 (if acked then 0 else 64))
                 (tick (peer acked rx) w))) as [_ ->].
  unfold busy; cbn [fst snd]. destruct acked; reflexivity.
Qed.

Lemma peer_signal_arrives (acked : bool) (rx : Z) :
  signal_arrives (peer acked rx).
Proof.
  intros w Hw. exists O.
  unfold flag_seen, load_ack_flag; cbn [after_loads fst].
  apply peer_tick_flag, Hw.
Qed.

End Facts.

(** * The claims *)

(** C8: for every address and direction, [i2c_start] and [i2c_rstart] are
    the same sequence [address_phase] (idle-wait, condition bit, idle-wait,
    flag armed, SSPBUF loaded with the address byte, wait for the flag,
    ACKSTAT returned) taken at SEN and at RSEN: the two differ in the
    condition bit only.  The address byte and the contract of the result do
    not depend on the bit. *)
Theorem rstart_same_as_start (char_signed : bool) (sched : schedule)
        (fuel : nat) (adrs rw : Z) (w : world) :
  i2c_start sched fuel adrs rw w = address_phase sched SEN fuel adrs rw w /\
  i2c_rstart char_signed sched fuel adrs rw w =
  address_phase sched RSEN fuel adrs rw w /\
  (forall cond r w',
      address_phase sched cond fuel adrs rw w = Some (r, w') ->
      r = get_con2 ACKSTAT (hw w') /\
      exists m b, seg w w' m b /\
                  address_events cond ((2 * adrs + rw) mod 256) r m).
Proof.
  split; [|split].
  - rewrite i2c_start_address_phase. reflexivity.
  - rewrite i2c_rstart_address_phase. reflexivity.
  - intros cond r w' H.
    destruct (address_phase_run _ _ _ _ _ _ _ _ H)
      as (m1 & m2 & m3 & b & S & W1 & W2 & W3 & R & _).
    split; [exact R|]. eexists. exists b. split; [exact S|].
    exists m1, m2, m3. auto.
Qed.

(** repeatedStart(0x50,1) against the slow peer: the events are those of
    the address phase with RSEN, the byte is 0xA1 and the result is the
    ACKSTAT bit. *)
Lemma rstart_same_as_start_witness :
  0 = get_con2 ACKSTAT
        (hw (run_world (i2c_rstart true (slow_peer true 0x5A) 5 0x50 1
                          world0))) /\
  exists m b,
    seg world0
        (run_world (i2c_rstart true (slow_peer true 0x5A) 5 0x50 1 world0))
        m b /\
    address_events RSEN 0xA1 0 m.
Proof.
  destruct (rstart_same_as_start true (slow_peer true 0x5A) 5 0x50 1 world0)
    as (_ & _ & H).
  apply (H RSEN). vm_compute. reflexivity.
Defined.

(** ** Every sequence of snapshots is the one of some environment *)

Lemma after_polls_clock (sched : schedule) (n : nat) (w : world) :
  clock (after_polls sched n w) = (clock w + 2 * n)%nat.
Proof.
  revert w. induction n as [|n IH]; intros w; cbn [after_polls].
  - lia.
  - rewrite IH. unfold poll, read_reg. cbn. lia.
Qed.

Lemma snapshots_realisable (f : nat -> Z * Z) (w : world) :
  forall n, snapshot (snapshots_sched f (clock w)) n w = f n.
Proof.
  intros n. unfold snapshot.
  pose proof (after_polls_clock (snapshots_sched f (clock w)) n w) as C.
  destruct (after_polls (snapshots_sched f (clock w)) n w) as [h fl c t].
  cbn [clock] in C. subst c.
  unfold poll, read_reg, tick, snapshots_sched.
  cbn [fst snd clock hw log fold_left env_step with_hw byte_of set_reg
       sspcon2 sspstat].
  replace ((clock w + 2 * n - clock w) / 2)%nat with n
    by (replace (clock w + 2 * n - clock w)%nat with (n * 2)%nat by lia;
        symmetry; apply Nat.div_mul; lia).
  replace ((S (clock w + 2 * n) - clock w) / 2)%nat with n.
  - destruct (f n); reflexivity.
  - replace (S (clock w + 2 * n) - clock w)%nat with (1 + n * 2)%nat by lia.
    rewrite Nat.div_add by lia. reflexivity.
Qed.

(** C4: for every mask, every environment and so every sequence of
    snapshots, [i2c_check_idle] returns right after the first evaluation of
    its condition that reads a snapshot in which the five condition bits of
    SSPCON2 are zero and every bit of SSPSTAT that the mask selects is zero:
    with a bound that allows this evaluation the result is the world after
    it, with a smaller bound the loop is still running, and when no snapshot
    is idle it is still running at every bound.  A run that returns has read
    busy snapshots and then one idle snapshot, the last.  Every sequence of
    snapshots is read under some environment. *)
Theorem check_idle_returns_at_first_idle (mask : Z) (w : world) :
  (forall sched n,
      idle mask (snapshot sched n w) ->
      (forall k, (k < n)%nat -> ~ idle mask (snapshot sched k w)) ->
      forall fuel,
        ((n < fuel)%nat ->
         i2c_check_idle sched fuel mask w =
         Some (tt, after_polls sched (S n) w)) /\
        ((fuel <= n)%nat -> i2c_check_idle sched fuel mask w = None)) /\
  (forall sched,
      (forall n, ~ idle mask (snapshot sched n w)) ->
      forall fuel, i2c_check_idle sched fuel mask w = None) /\
  (forall sched fuel u w',
      i2c_check_idle sched fuel mask w = Some (u, w') ->
      exists n, (n < fuel)%nat /\
                idle mask (snapshot sched n w) /\
                (forall k, (k < n)%nat -> ~ idle mask (snapshot sched k w)) /\
                w' = after_polls sched (S n) w) /\
  (forall f : nat -> Z * Z,
      exists sched, forall n, snapshot sched n w = f n).
Proof.
  split; [|split; [|split]].
  - intros sched n Hz Hb fuel. apply check_idle_first.
    + apply busy_zero_iff_idle, Hz.
    + intros k Hk Hk0. apply (Hb k Hk). apply busy_zero_iff_idle, Hk0.
  - intros sched Hb fuel. apply check_idle_never.
    intros n Hn. apply (Hb n). apply busy_zero_iff_idle, Hn.
  - intros sched fuel u w' H.
    destruct (check_idle_inv _ _ _ _ _ _ H) as (n & Hn & Hz & Hb & E).
    exists n. split; [exact Hn|]. split; [apply busy_zero_iff_idle, Hz|].
    split; [|exact E].
    intros k Hk Hi. apply (Hb k Hk). apply busy_zero_iff_idle, Hi.
  - intros f. exists (snapshots_sched f (clock w)).
    apply snapshots_realisable.
Qed.

(** On the slow peer, with mask 0x5: the first two snapshots are busy (R/W is set), the
    third is idle; with bound 3 the wait returns after the third evaluation,
    with bound 2 it is still running. *)
Lemma check_idle_returns_at_first_idle_witness :
  i2c_check_idle (slow_peer true 0x5A) 3 0x5 world0 =
  Some (tt, after_polls (slow_peer true 0x5A) 3 world0) /\
  i2c_check_idle (slow_peer true 0x5A) 2 0x5 world0 = None.
Proof.
  destruct (check_idle_returns_at_first_idle 0x5 world0) as (H & _).
  specialize (H (slow_peer true 0x5A)).
  assert (Hz : idle 0x5 (snapshot (slow_peer true 0x5A) 2 world0)).
  { apply busy_zero_iff_idle. vm_compute. reflexivity. }
  assert (Hb : forall k, (k < 2)%nat ->
                         ~ idle 0x5 (snapshot (slow_peer true 0x5A) k world0)).
  { intros k Hk Hi. apply busy_zero_iff_idle in Hi.
    destruct k as [|[|k]]; [vm_compute in Hi; discriminate
                           |vm_compute in Hi; discriminate|lia]. }
  split.
  - apply (H 2%nat Hz Hb 3%nat). lia.
  - apply (H 2%nat Hz Hb 2%nat). lia.
Defined.

(** ** The handler *)

(** C7, as stated, fails: the handler is called for a bus conflict while a
    transfer is armed (BCLIF set, SSPIF clear, [ack_flag] 1); the flag is
    set when the handler runs and is still set when it has run. *)
Lemma handler_keeps_flag_on_conflict :
  ack_flag conflict_world = 1 /\
  bit_of (hw conflict_world) SSPIF = false /\
  ack_flag (i2c_interrupt conflict_world) = 1.
Proof. repeat split. Qed.

(** C7, amended: on every run of the handler, when the completion signal is
    pending (SSPIF set) a flag that is 1 becomes 0, and when it is not
    pending the flag keeps its value; afterward SSPIF is clear, also when the
    flag was clear already, and BCLIF is clear; nothing else changes: no
    other register, no other bit, and the handler has no result. *)
Theorem handler_effect (w : world) :
  (bit_of (hw w) SSPIF = true -> ack_flag w = 1 ->
   ack_flag (i2c_interrupt w) = 0) /\
  (bit_of (hw w) SSPIF = true -> ack_flag w <> 1 ->
   ack_flag (i2c_interrupt w) = ack_flag w) /\
  (bit_of (hw w) SSPIF = false ->
   ack_flag (i2c_interrupt w) = ack_flag w) /\
  bit_of (hw (i2c_interrupt w)) SSPIF = false /\
  bit_of (hw (i2c_interrupt w)) BCLIF = false /\
  (forall r, byte_of (hw (i2c_interrupt w)) r = byte_of (hw w) r) /\
  (forall b, b <> SSPIF -> b <> BCLIF ->
             bit_of (hw (i2c_interrupt w)) b = bit_of (hw w) b) /\
  clock (i2c_interrupt w) = clock w /\
  trace (i2c_interrupt w) =
  trace w ++ [EvIsr (bit_of (hw w) SSPIF) (bit_of (hw w) BCLIF) (ack_flag w)].
Proof.
  destruct w as [h f c t]; destruct h as [c1 c2 st ad bf si bc se be pe ge].
  unfold i2c_interrupt; cbn.
  destruct (f =? 1) eqn:E.
  - apply Z.eqb_eq in E. subst f.
    destruct si, bc; cbn; repeat split; intros; try congruence;
      try (destruct r; reflexivity);
      try (destruct b; cbn; congruence).
  - apply Z.eqb_neq in E.
    destruct si, bc; cbn; repeat split; intros; try congruence;
      try (destruct r; reflexivity);
      try (destruct b; cbn; congruence).
Qed.

(** The handler runs for a completion while a transfer is armed: the flag
    becomes 0. *)
Lemma handler_effect_witness :
  ack_flag (i2c_interrupt (with_hw (complete true 0 (hw conflict_world))
                             conflict_world)) = 0.
Proof.
  apply (proj1 (handler_effect (with_hw (complete true 0 (hw conflict_world))
                                  conflict_world))); reflexivity.
Defined.

(** ** Initialization *)

(** C9: [i2c_init_master] always returns; it writes SSPADD once, and the
    value is [clock_divisor] of the 48 MHz clock and the 100 kHz bus rate
    that i2c.c states, which is 119 = 0x77; when nothing interferes SSPADD
    holds 119 afterward. *)
Theorem init_programs_divisor (sched : schedule) (w : world) :
  (exists w' b,
      i2c_init_master sched w = Some (tt, w') /\ seg w w' init_events b) /\
  filter (fun e => match e with EvWrite SSPADD _ => true | _ => false end)
         init_events = [EvWrite SSPADD (clock_divisor FOSC I2C_RATE)] /\
  clock_divisor 48000000 100000 = 119 /\
  119 = 0x77 /\
  sspadd (hw (run_world (i2c_init_master dead w))) = 119.
Proof.
  split; [|repeat split].
  destruct (i2c_init_master_run sched w) as (w' & b & H & S & _).
  exists w', b. auto.
Qed.

(** ** Who touches [ack_flag] *)







(** ** The rendezvous of the main path and the handler *)

Lemma run_op_bridge (char_signed : bool) (sched : schedule) (fuel : nat)
      (o : op) (w w' : world) (r : Z) :
  ack_flag w = 0 ->
  run_op char_signed sched fuel o w = Some (r, w') ->
  ack_flag w' = 0 /\
  exists m, seg w w' m (if arms o then [Arm; Clear; Return] else []).
Proof.
  intros F0 H. destruct o as [a d|a d| |dt|ack]; cbn [run_op arms] in *.
  - rewrite i2c_start_address_phase in H.
    destruct (address_phase_run _ _ _ _ _ _ _ _ H)
      as (m1 & m2 & m3 & b & S & _ & _ & _ & _ & F & B).
    rewrite (B F0) in S. eauto.
  - rewrite i2c_rstart_address_phase in H.
    destruct (address_phase_run _ _ _ _ _ _ _ _ H)
      as (m1 & m2 & m3 & b & S & _ & _ & _ & _ & F & B).
    rewrite (B F0) in S. eauto.
  - apply bind_inv in H as (u & w1 & H & E). injection E as _ <-.
    destruct (i2c_stop_run _ _ _ _ _ H) as (m1 & b & S & _ & I & _).
    rewrite F0 in I. apply isr_effect_zero in I as [F ->]. eauto.
  - destruct (i2c_send_run _ _ _ _ _ _ H)
      as (m1 & m2 & b & S & _ & _ & _ & F & B).
    rewrite (B F0) in S. eauto.
  - destruct (i2c_receive_run _ _ _ _ _ _ _ H)
      as (m1 & m2 & m3 & byte & b & S & _ & _ & _ & _ & I & _).
    rewrite F0 in I. apply isr_effect_zero in I as [F ->]. eauto.
Qed.

Lemma run_ops_bridge (char_signed : bool) (sched : schedule) (fuel : nat)
      (os : list op) :
  forall (w w' : world) (rs : list Z),
    ack_flag w = 0 ->
    run_ops char_signed sched fuel os w = Some (rs, w') ->
    ack_flag w' = 0 /\ exists m, seg w w' m (rendezvous os).
Proof.
  induction os as [|o os IH]; intros w w' rs F0 H; cbn [run_ops] in H.
  - injection H as _ <-. split; [exact F0|]. exists []. apply seg_refl.
  - apply bind_inv in H as (r & w1 & H1 & H).
    apply bind_inv in H as (rs' & w2 & H2 & E). injection E as _ <-.
    destruct (run_op_bridge _ _ _ _ _ _ _ F0 H1) as (F1 & m1 & S1).
    destruct (IH _ _ _ F1 H2) as (F2 & m2 & S2).
    split; [exact F2|]. exists (m1 ++ m2).
    unfold rendezvous. cbn [flat_map].
    apply (seg_trans _ _ _ _ _ _ _ S1 S2).
Qed.

Lemma run_op_live (char_signed : bool) (sched : schedule) (o : op)
      (w : world) :
  bus_settles sched -> signal_arrives sched ->
  exists n r w', forall fuel, (n <= fuel)%nat ->
    run_op char_signed sched fuel o w = Some (r, w').
Proof.
  intros Hb Hs. destruct o as [a d|a d| |dt|ack]; cbn [run_op].
  - destruct (address_phase_live sched SEN a d w Hb Hs) as (n & r & w' & H).
    exists n, r, w'. intros fuel Hf.
    rewrite i2c_start_address_phase. apply H, Hf.
  - destruct (address_phase_live sched RSEN a d w Hb Hs) as (n & r & w' & H).
    exists n, r, w'. intros fuel Hf.
    rewrite i2c_rstart_address_phase. apply H, Hf.
  - destruct (i2c_stop_live sched w Hb) as (n & w' & H).
    exists n, 0, w'. intros fuel Hf.
    rewrite (bind_some _ _ _ _ _ (H fuel Hf)). reflexivity.
  - apply i2c_send_live; assumption.
  - apply i2c_receive_live; assumption.
Qed.

Lemma run_ops_live (char_signed : bool) (sched : schedule) (os : list op) :
  bus_settles sched -> signal_arrives sched ->
  forall w, exists n rs w', forall fuel, (n <= fuel)%nat ->
    run_ops char_signed sched fuel os w = Some (rs, w').
Proof.
  intros Hb Hs. induction os as [|o os IH]; intros w; cbn [run_ops].
  - exists O, [], w. reflexivity.
  - destruct (run_op_live char_signed sched o w Hb Hs) as (n1 & r & w1 & H1).
    destruct (IH w1) as (n2 & rs & w2 & H2).
    exists (Nat.max n1 n2), (r :: rs), w2. intros fuel Hf.
    rewrite (bind_some _ _ _ _ _ (H1 fuel ltac:(lia))).
    rewrite (bind_some _ _ _ _ _ (H2 fuel ltac:(lia))). reflexivity.
Qed.

(** ** What is complete when a primitive returns *)

Lemma dead_after_polls_hw (n : nat) :
  forall w, hw (after_polls dead n w) = hw w.
Proof.
  induction n as [|n IH]; intros w; cbn [after_polls]; [reflexivity|].
  rewrite IH. reflexivity.
Qed.

Lemma dead_snapshot (n : nat) (w : world) :
  snapshot dead n w = (sspcon2 (hw w), sspstat (hw w)).
Proof.
  unfold snapshot, poll, read_reg. cbn [fst snd byte_of].
  change (hw (tick dead (after_polls dead n w)))
    with (hw (after_polls dead n w)).
  change (hw (tick dead (log (EvRead SSPCON2 (sspcon2 (hw (after_polls dead n w))))
                           (tick dead (after_polls dead n w)))))
    with (hw (after_polls dead n w)).
  rewrite dead_after_polls_hw. reflexivity.
Qed.

Lemma condition_set_busy (c : con2bit) (h : regs) (mask s : Z) :
  In c [SEN; RSEN; PEN; RCEN; ACKEN] -> get_con2 c h = 1 ->
  busy mask (sspcon2 h, s) <> 0.
Proof.
  intros Hin Hg Hz. apply busy_zero_iff_idle in Hz. destruct Hz as [Hc _].
  cbn [fst] in Hc. unfold get_con2 in Hg. rewrite (Hc c Hin) in Hg.
  discriminate.
Qed.

(** C5, as stated, fails: under a peripheral that never reacts, stop()
    called on an idle bus returns; PEN, which it has set, is still set, the
    idle condition does not hold, and an idle-wait started there never
    ends: nothing has confirmed that the stop condition is complete. *)
Lemma stop_returns_before_completion :
  i2c_stop dead 1 world0 = Some (tt, run_world (i2c_stop dead 1 world0)) /\
  get_con2 PEN (hw (run_world (i2c_stop dead 1 world0))) = 1 /\
  busy 0x5 (sspcon2 (hw (run_world (i2c_stop dead 1 world0))),
            sspstat (hw (run_world (i2c_stop dead 1 world0)))) <> 0 /\
  (forall fuel,
      i2c_check_idle dead fuel 0x5 (run_world (i2c_stop dead 1 world0))
      = None).
Proof.
  split; [reflexivity|]. split; [reflexivity|]. split; [discriminate|].
  intros fuel. apply check_idle_never. intros n.
  rewrite dead_snapshot. discriminate.
Qed.

(** * Beyond the claims *)

(** ** The handler run twice *)

Lemma i2c_interrupt_hw (w : world) :
  hw (i2c_interrupt w) = set_bit BCLIF false (set_bit SSPIF false (hw w)).
Proof.
  destruct w as [h f c t]; destruct h as [c1 c2 st ad bf si bc se be pe ge].
  unfold i2c_interrupt; cbn.
  destruct si, (f =? 1), bc; reflexivity.
Qed.

(** X1: a second run of the handler right after the first finds neither
    signal pending and changes neither a register nor [ack_flag]. *)
Theorem handler_idempotent (w : world) :
  hw (i2c_interrupt (i2c_interrupt w)) = hw (i2c_interrupt w) /\
  ack_flag (i2c_interrupt (i2c_interrupt w)) = ack_flag (i2c_interrupt w) /\
  trace (i2c_interrupt (i2c_interrupt w)) =
  trace (i2c_interrupt w) ++
  [EvIsr false false (ack_flag (i2c_interrupt w))].
Proof.
  pose proof (i2c_interrupt_hw w) as Hh.
  set (w1 := i2c_interrupt w) in *.
  assert (S1 : bit_of (hw w1) SSPIF = false)
    by (rewrite Hh; destruct (hw w); reflexivity).
  assert (B1 : bit_of (hw w1) BCLIF = false)
    by (rewrite Hh; destruct (hw w); reflexivity).
  rewrite (i2c_interrupt_hw w1), (i2c_interrupt_flag w1),
    (i2c_interrupt_trace w1), S1, B1.
  repeat split.
  rewrite Hh. destruct (hw w); reflexivity.
Qed.

(** ** Waiting for a completion that is never signalled *)

Lemma env_steps_never_pending (evs : list env_event) :
  (forall f, In (Hw f) evs ->
             forall h, sspif h = false -> sspif (f h) = false) ->
  forall w, sspif (hw w) = false ->
            sspif (hw (fold_left env_step evs w)) = false /\
            ack_flag (fold_left env_step evs w) = ack_flag w.
Proof.
  induction evs as [|e evs IH]; intros Hf w Hw; cbn [fold_left]; [auto|].
  assert (H1 : sspif (hw (env_step w e)) = false /\
               ack_flag (env_step w e) = ack_flag w).
  { destruct e as [f|]; cbn [env_step].
    - split; [|reflexivity]. cbn. apply (Hf f); [left; reflexivity|exact Hw].
    - destruct w as [h fl c t];
        destruct h as [c1 c2 st ad bf si bc se be pe ge].
      cbn in Hw. subst si. unfold i2c_interrupt; cbn.
      destruct bc; auto. }
  destruct H1 as [H1 H2].
  destruct (IH (fun f Hin => Hf f (or_intror Hin)) _ H1) as [H3 H4].
  split; [exact H3|congruence].
Qed.

Lemma tick_never_pending (sched : schedule) (w : world) :
  never_pending sched -> sspif (hw w) = false ->
  sspif (hw (tick sched w)) = false /\
  ack_flag (tick sched w) = ack_flag w.
Proof.
  intros Hn Hw. unfold tick. cbn [hw ack_flag].
  apply env_steps_never_pending; [|exact Hw].
  intros f Hin. apply (Hn (clock w) f Hin).
Qed.

Lemma poll_never_pending (sched : schedule) (w : world) :
  never_pending sched -> sspif (hw w) = false ->
  sspif (hw (snd (poll sched w))) = false /\
  ack_flag (snd (poll sched w)) = ack_flag w.
Proof.
  intros Hn Hw. unfold poll, read_reg. cbn [snd hw ack_flag log].
  destruct (tick_never_pending sched w Hn Hw) as [H1 H2].
  destruct (tick_never_pending sched
              (log (EvRead SSPCON2 (byte_of (hw (tick sched w)) SSPCON2))
                 (tick sched w)) Hn H1) as [H3 H4].
  split; [exact H3|]. rewrite H4. exact H2.
Qed.

Lemma check_idle_never_pending (sched : schedule) (fuel : nat) (mask : Z) :
  never_pending sched ->
  forall w u w',
    sspif (hw w) = false ->
    i2c_check_idle sched fuel mask w = Some (u, w') ->
    sspif (hw w') = false /\ ack_flag w' = ack_flag w.
Proof.
  intros Hn. induction fuel as [|fuel IH]; intros w u w' Hw H;
    [discriminate|].
  rewrite check_idle_S in H.
  destruct (poll_never_pending sched w Hn Hw) as [H1 H2].
  destruct (busy mask (fst (poll sched w)) =? 0).
  - injection H as _ <-. auto.
  - destruct (IH _ _ _ H1 H) as [H3 H4]. split; [exact H3|congruence].
Qed.

Lemma wait_ack_never_pending (sched : schedule) (fuel : nat) :
  never_pending sched ->
  forall w, sspif (hw w) = false -> ack_flag w <> 0 ->
            wait_ack sched fuel w = None.
Proof.
  intros Hn. induction fuel as [|fuel IH]; intros w Hw Hf; [reflexivity|].
  rewrite wait_ack_S. unfold load_ack_flag. cbn [fst snd].
  destruct (tick_never_pending sched w Hn Hw) as [H1 H2].
  rewrite H2. apply Z.eqb_neq in Hf. rewrite Hf. apply Z.eqb_neq in Hf.
  apply IH; [exact H1|cbn [ack_flag log]; rewrite H2; exact Hf].
Qed.

Lemma transmit_never_pending (sched : schedule) (fuel : nat) (byte : Z)
      (w : world) :
  never_pending sched -> sspif (hw w) = false ->
  (lift (store_ack_flag sched 1) ;;;
   lift (write_reg sched SSPBUF byte) ;;;
   wait_ack sched fuel ;;;
   lift (read_con2 sched ACKSTAT)) w = None.
Proof.
  intros Hn Hw.
  destruct (store_ack_flag sched 1 w) as [u1 w1] eqn:E1.
  assert (A1 : sspif (hw w1) = false /\ ack_flag w1 = 1).
  { unfold store_ack_flag in E1. injection E1 as _ <-.
    split; [apply (tick_never_pending sched w Hn Hw)|reflexivity]. }
  destruct A1 as [S1 F1].
  destruct (write_reg sched SSPBUF byte w1) as [u2 w2] eqn:E2.
  assert (A2 : sspif (hw w2) = false /\ ack_flag w2 <> 0).
  { destruct (tick_never_pending sched w1 Hn S1) as [S2 F2].
    unfold write_reg in E2. injection E2 as _ <-.
    cbn [hw ack_flag log with_hw]. split; [exact S2|].
    rewrite F2, F1. discriminate. }
  destruct A2 as [S2 F2].
  unfold bind at 1. unfold lift at 1. rewrite E1.
  unfold bind at 1. unfold lift at 1. rewrite E2.
  unfold bind at 1.
  rewrite (wait_ack_never_pending sched fuel Hn w2 S2 F2). reflexivity.
Qed.

Lemma write_con2_never_pending (sched : schedule) (c : con2bit) (v : bool)
      (w : world) :
  never_pending sched -> sspif (hw w) = false ->
  sspif (hw (snd (write_con2 sched c v w))) = false.
Proof.
  intros Hn Hw. unfold write_con2. cbn [snd hw log with_hw].
  destruct (tick_never_pending sched w Hn Hw) as [S1 _]. exact S1.
Qed.

(** X2: when the completion signal is not pending at the call and the
    peripheral never raises it, [i2c_start], [i2c_rstart] and [i2c_send] do
    not return at any bound, also when the handler is called (for a bus
    conflict, say): nothing ends [while (ack_flag);]. *)
Theorem no_completion_no_return (char_signed : bool) (sched : schedule)
        (w : world) :
  never_pending sched -> sspif (hw w) = false ->
  forall fuel,
    (forall adrs rw, i2c_start sched fuel adrs rw w = None) /\
    (forall adrs rw, i2c_rstart char_signed sched fuel adrs rw w = None) /\
    (forall dt, i2c_send sched fuel dt w = None).
Proof.
  intros Hn Hw fuel.
  assert (A : forall c adrs rw, address_phase sched c fuel adrs rw w = None).
  { intros c adrs rw. unfold address_phase. unfold bind at 1.
    destruct (i2c_check_idle sched fuel 5 w) as [[u1 w1]|] eqn:H1;
      [|reflexivity].
    destruct (check_idle_never_pending sched fuel 5 Hn _ _ _ Hw H1)
      as [Hw1 _].
    pose proof (write_con2_never_pending sched c true w1 Hn Hw1) as Hw2.
    unfold bind at 1. unfold lift at 1.
    destruct (write_con2 sched c true w1) as [u2 w2]. cbn [snd] in Hw2.
    unfold bind at 1.
    destruct (i2c_check_idle sched fuel 5 w2) as [[u3 w3]|] eqn:H3;
      [|reflexivity].
    destruct (check_idle_never_pending sched fuel 5 Hn _ _ _ Hw2 H3)
      as [Hw3 _].
    apply transmit_never_pending; assumption. }
  split; [|split].
  - intros adrs rw. rewrite i2c_start_address_phase. apply A.
  - intros adrs rw. rewrite i2c_rstart_address_phase. apply A.
  - intros dt. unfold i2c_send. unfold bind at 1.
    destruct (i2c_check_idle sched fuel 5 w) as [[u1 w1]|] eqn:H1;
      [|reflexivity].
    destruct (check_idle_never_pending sched fuel 5 Hn _ _ _ Hw H1)
      as [Hw1 _].
    apply transmit_never_pending; assumption.
Qed.

(** Bus conflicts only: the handler runs before every step, and sendByte is
    still waiting after a hundred reads of the flag. *)
Lemma no_completion_no_return_witness :
  i2c_send conflict_only 100 0x10 world0 = None.
Proof.
  assert (Hn : never_pending conflict_only).
  { intros t f [Hin|[Hin|[]]]; [|discriminate].
    injection Hin as <-. intros h Hh. destruct h; exact Hh. }
  apply (no_completion_no_return false conflict_only world0 Hn eq_refl
           100%nat).
Defined.

(** ** Condition bits that the peripheral never clears *)

Lemma bind_none {A B : Type} (m : M A) (k : A -> M B) (w : world) :
  m w = None -> bind m k w = None.
Proof. unfold bind. intros ->. reflexivity. Qed.

Lemma env_steps_keep_bit (c : con2bit) (evs : list env_event) :
  (forall f, In (Hw f) evs ->
             forall h, get_con2 c h = 1 -> get_con2 c (f h) = 1) ->
  forall w, get_con2 c (hw w) = 1 ->
            get_con2 c (hw (fold_left env_step evs w)) = 1.
Proof.
  induction evs as [|e evs IH]; intros Hf w Hw; cbn [fold_left]; [auto|].
  apply IH; [intros f Hin; apply Hf; right; exact Hin|].
  destruct e as [f|]; cbn [env_step].
  - cbn. apply (Hf f); [left; reflexivity|exact Hw].
  - destruct w as [h fl cl t];
      destruct h as [c1 c2 st ad bf si bc se be pe ge].
    unfold i2c_interrupt; cbn. unfold get_con2 in *; cbn in *.
    destruct si, (fl =? 1), bc; exact Hw.
Qed.

Lemma tick_keeps_bit (c : con2bit) (sched : schedule) (w : world) :
  keeps_bit c sched -> get_con2 c (hw w) = 1 ->
  get_con2 c (hw (tick sched w)) = 1.
Proof.
  intros Hk Hw. unfold tick. cbn [hw].
  apply env_steps_keep_bit; [|exact Hw].
  intros f Hin. apply (Hk (clock w) f Hin).
Qed.

Lemma check_idle_stuck (c : con2bit) (sched : schedule) (fuel : nat)
      (mask : Z) :
  keeps_bit c sched -> In c [SEN; RSEN; PEN; RCEN; ACKEN] ->
  forall w, get_con2 c (hw w) = 1 ->
            i2c_check_idle sched fuel mask w = None.
Proof.
  intros Hk Hin. induction fuel as [|fuel IH]; intros w Hw; [reflexivity|].
  rewrite check_idle_S.
  pose proof (tick_keeps_bit c sched w Hk Hw) as H1.
  assert (Hb : busy mask (fst (poll sched w)) <> 0).
  { unfold poll, read_reg. cbn [fst snd byte_of].
    apply (condition_set_busy c (hw (tick sched w))); assumption. }
  apply Z.eqb_neq in Hb. rewrite Hb. apply IH.
  unfold poll, read_reg. cbn [snd hw log].
  apply (tick_keeps_bit c sched); [exact Hk|exact H1].
Qed.

Lemma run_op_stuck (c : con2bit) (char_signed : bool) (sched : schedule)
      (fuel : nat) (o : op) (w : world) :
  keeps_bit c sched -> In c [SEN; RSEN; PEN; RCEN; ACKEN] ->
  get_con2 c (hw w) = 1 ->
  run_op char_signed sched fuel o w = None.
Proof.
  intros Hk Hin Hw.
  pose proof (check_idle_stuck c sched fuel 5 Hk Hin w Hw) as H.
  destruct o; cbn [run_op].
  - unfold i2c_start. apply bind_none, H.
  - unfold i2c_rstart. apply bind_none, H.
  - apply bind_none. unfold i2c_stop. apply bind_none, H.
  - unfold i2c_send. apply bind_none, H.
  - unfold i2c_receive. apply bind_none, H.
Qed.

Lemma assert_then_wait_stuck {A : Type} (c : con2bit) (sched : schedule)
      (fuel : nat) (mask : Z) (k : M A) (w : world) :
  keeps_bit c sched -> In c [SEN; RSEN; PEN; RCEN; ACKEN] ->
  (i2c_check_idle sched fuel 5 ;;;
   lift (write_con2 sched c true) ;;;
   i2c_check_idle sched fuel mask ;;; k) w = None.
Proof.
  intros Hk Hin. unfold bind at 1.
  destruct (i2c_check_idle sched fuel 5 w) as [[u1 w1]|]; [|reflexivity].
  unfold bind at 1. unfold lift at 1.
  destruct (write_con2_run sched c true w1) as (_ & _ & _ & G).
  destruct (write_con2 sched c true w1) as [u2 w2]. cbn [snd] in G.
  unfold bind at 1.
  rewrite (check_idle_stuck c sched fuel mask Hk Hin w2 G). reflexivity.
Qed.

(** X3: the driver only sets the condition bits and leaves it to the
    peripheral to clear them.  When the peripheral never clears SEN,
    [i2c_start] does not return at any bound; the same for RSEN and
    [i2c_rstart] and for RCEN and [i2c_receive]; and when it never clears
    PEN (ACKEN), no operation started after a return of [i2c_stop]
    ([i2c_receive]) returns. *)
Theorem stuck_condition_no_return (char_signed : bool) (sched : schedule) :
  (keeps_bit SEN sched ->
   forall fuel adrs rw w, i2c_start sched fuel adrs rw w = None) /\
  (keeps_bit RSEN sched ->
   forall fuel adrs rw w,
     i2c_rstart char_signed sched fuel adrs rw w = None) /\
  (keeps_bit RCEN sched ->
   forall fuel ack w, i2c_receive char_signed sched fuel ack w = None) /\
  (keeps_bit PEN sched ->
   forall fuel w u w',
     i2c_stop sched fuel w = Some (u, w') ->
     forall fuel' o, run_op char_signed sched fuel' o w' = None) /\
  (keeps_bit ACKEN sched ->
   forall fuel ack w r w',
     i2c_receive char_signed sched fuel ack w = Some (r, w') ->
     forall fuel' o, run_op char_signed sched fuel' o w' = None).
Proof.
  repeat match goal with |- _ /\ _ => split end.
  - intros Hk fuel adrs rw w. unfold i2c_start.
    apply assert_then_wait_stuck; [exact Hk|cbn; auto].
  - intros Hk fuel adrs rw w. unfold i2c_rstart.
    apply assert_then_wait_stuck; [exact Hk|cbn; auto].
  - intros Hk fuel ack w. unfold i2c_receive.
    apply assert_then_wait_stuck; [exact Hk|cbn; auto 6].
  - intros Hk fuel w u w' H fuel' o.
    destruct (i2c_stop_run _ _ _ _ _ H) as (_ & _ & _ & _ & _ & G).
    apply (run_op_stuck PEN); [exact Hk|cbn; auto|exact G].
  - intros Hk fuel ack w r w' H fuel' o.
    destruct (i2c_receive_run _ _ _ _ _ _ _ H)
      as (_ & _ & _ & _ & _ & _ & _ & _ & _ & _ & _ & G).
    apply (run_op_stuck ACKEN); [exact Hk|cbn; auto 6|exact G].
Qed.

(** Against the peripheral that does nothing, start(0x50,0) on an idle bus
    sets SEN and is still waiting after a hundred evaluations of the idle
    condition. *)
Lemma stuck_condition_no_return_witness :
  i2c_start dead 100 0x50 0 world0 = None.
Proof.
  assert (Hk : keeps_bit SEN dead) by (intros t f []).
  apply (proj1 (stuck_condition_no_return false dead) Hk 100%nat 0x50 0
           world0).
Defined.

(** ** What a sequence of operations writes *)

Lemma idle_wait_no_write (mask : Z) (m : list event) :
  idle_wait mask m -> filter is_write m = [].
Proof.
  intros (pre & last & -> & _ & _). rewrite filter_app.
  assert (H : filter is_write (flat_map poll_events pre) = []).
  { induction pre as [|cs pre IH]; [reflexivity|]. cbn. exact IH. }
  rewrite H. reflexivity.
Qed.

Lemma flag_wait_no_write (m : list event) :
  flag_wait m -> filter is_write m = [].
Proof.
  intros (pre & -> & _). rewrite filter_app.
  assert (H : filter is_write (map EvFlagRead pre) = []).
  { induction pre as [|v pre IH]; [reflexivity|]. cbn. exact IH. }
  rewrite H. reflexivity.
Qed.

Lemma run_op_writes (char_signed : bool) (sched : schedule) (fuel : nat)
      (o : op) (w w' : world) (r : Z) :
  run_op char_signed sched fuel o w = Some (r, w') ->
  exists m b, seg w w' m b /\ filter is_write m = op_writes o.
Proof.
  intros H. destruct o as [a d|a d| |dt|ack]; cbn [run_op op_writes] in *.
  - rewrite i2c_start_address_phase in H.
    destruct (address_phase_run _ _ _ _ _ _ _ _ H)
      as (m1 & m2 & m3 & b & S & W1 & W2 & W3 & _).
    eexists. exists b. split; [exact S|].
    rewrite !filter_app, (idle_wait_no_write _ _ W1),
      (idle_wait_no_write _ _ W2), (flag_wait_no_write _ W3).
    reflexivity.
  - rewrite i2c_rstart_address_phase in H.
    destruct (address_phase_run _ _ _ _ _ _ _ _ H)
      as (m1 & m2 & m3 & b & S & W1 & W2 & W3 & _).
    eexists. exists b. split; [exact S|].
    rewrite !filter_app, (idle_wait_no_write _ _ W1),
      (idle_wait_no_write _ _ W2), (flag_wait_no_write _ W3).
    reflexivity.
  - apply bind_inv in H as (u & w1 & H & E). injection E as _ <-.
    destruct (i2c_stop_run _ _ _ _ _ H) as (m1 & b & S & W1 & _).
    eexists. exists b. split; [exact S|].
    rewrite !filter_app, (idle_wait_no_write _ _ W1). reflexivity.
  - destruct (i2c_send_run _ _ _ _ _ _ H)
      as (m1 & m2 & b & S & W1 & W2 & _).
    eexists. exists b. split; [exact S|].
    rewrite !filter_app, (idle_wait_no_write _ _ W1),
      (flag_wait_no_write _ W2).
    reflexivity.
  - destruct (i2c_receive_run _ _ _ _ _ _ _ H)
      as (m1 & m2 & m3 & byte & b & S & W1 & W2 & W3 & _).
    eexists. exists b. split; [exact S|].
    rewrite !filter_app, (idle_wait_no_write _ _ W1),
      (idle_wait_no_write _ _ W2), (idle_wait_no_write _ _ W3).
    reflexivity.
Qed.

(** X4: whatever the environment does and however long the waits take, the
    writes of the main path in a run of a sequence of operations are the
    writes of the operations in call order: for start and repeatedStart the
    condition bit, the flag and the address byte; for sendByte the flag and
    the data byte modulo 256; for stop PEN; for receiveByte RCEN, ACKDT and
    ACKEN.  The operations write no other register, clear no condition bit
    and never write 0 to [ack_flag]. *)
Theorem writes_of_a_sequence (char_signed : bool) (sched : schedule)
        (fuel : nat) (os : list op) :
  forall w rs w',
    run_ops char_signed sched fuel os w = Some (rs, w') ->
    length rs = length os /\
    exists m b, seg w w' m b /\
                filter is_write m = flat_map op_writes os.
Proof.
  induction os as [|o os IH]; intros w rs w' H; cbn [run_ops] in H.
  - injection H as <- <-. split; [reflexivity|].
    exists [], []. split; [apply seg_refl|reflexivity].
  - apply bind_inv in H as (r & w1 & H1 & H).
    apply bind_inv in H as (rs' & w2 & H2 & E). injection E as <- <-.
    destruct (run_op_writes _ _ _ _ _ _ _ H1) as (m1 & b1 & S1 & F1).
    destruct (IH _ _ _ H2) as (L & m2 & b2 & S2 & F2).
    split; [cbn; congruence|].
    exists (m1 ++ m2), (b1 ++ b2). split.
    + apply (seg_trans _ _ _ _ _ _ _ S1 S2).
    + rewrite filter_app, F1, F2. reflexivity.
Qed.

(** A write of one byte and a read of one byte against the slow peer. *)
Lemma writes_of_a_sequence_witness :
  exists m b,
    seg world0
        (run_world
           (run_ops false (slow_peer true 0x5A) 5
              [OpStart 0x50 0; OpSend 0x10; OpRstart 0x50 1;
               OpReceive 1; OpStop] world0)) m b /\
    filter is_write m =
    [EvBitWrite SEN true; EvFlagWrite 1; EvWrite SSPBUF 0xA0;
     EvFlagWrite 1; EvWrite SSPBUF 0x10;
     EvBitWrite RSEN true; EvFlagWrite 1; EvWrite SSPBUF 0xA1;
     EvBitWrite RCEN true; EvBitWrite ACKDT true; EvBitWrite ACKEN true;
     EvBitWrite PEN true].
Proof.
  refine (proj2 (writes_of_a_sequence false (slow_peer true 0x5A) 5
                   [OpStart 0x50 0; OpSend 0x10; OpRstart 0x50 1;
                    OpReceive 1; OpStop] world0 [0; 0; 0; 0x5A; 0] _ _)).
  vm_compute. reflexivity.
Defined.

(** ** Narrower masks *)

Lemma busy_submask (mask mask' : Z) (cs : Z * Z) :
  Z.land mask' mask = mask' -> busy mask cs = 0 -> busy mask' cs = 0.
Proof.
  unfold busy. intros Hm H. apply Z.lor_eq_0_iff in H as [H1 H2].
  apply Z.lor_eq_0_iff. split; [exact H1|].
  rewrite <- Hm, (Z.land_comm mask' mask), Z.land_assoc, H2.
  reflexivity.
Qed.

(** X5: the snapshots that [i2c_check_idle] reads do not depend on the
    mask, so a wait on a mask that selects fewer status bits ends no later:
    when the wait on [mask] returns after evaluation [n], the wait on a
    submask [mask'], from the same world and with the same bound, returns
    after an evaluation [k <= n]. *)
Theorem narrower_mask_returns_no_later (sched : schedule) (mask mask' : Z)
        (fuel : nat) (w w' : world) (u : unit) :
  Z.land mask' mask = mask' ->
  i2c_check_idle sched fuel mask w = Some (u, w') ->
  exists n k,
    (k <= n)%nat /\ (n < fuel)%nat /\
    w' = after_polls sched (S n) w /\
    i2c_check_idle sched fuel mask' w =
    Some (tt, after_polls sched (S k) w).
Proof.
  intros Hm H.
  destruct (check_idle_inv _ _ _ _ _ _ H) as (n & Hn & Hz & _ & E).
  pose proof (busy_submask mask mask' _ Hm Hz) as Hz'.
  destruct (first_zero (fun j => busy mask' (snapshot sched j w)) n Hz')
    as (k & Hk & Hzk & Hbk).
  exists n, k. repeat split; auto.
  apply (check_idle_first sched mask' k w fuel Hzk Hbk). lia.
Qed.

(** On the slow peer the wait on 0x5 returns after the third evaluation;
    the wait on 0x4 returns no later. *)
Lemma narrower_mask_returns_no_later_witness :
  exists n k,
    (k <= n)%nat /\ (n < 3)%nat /\
    after_polls (slow_peer true 0x5A) 3 world0 =
    after_polls (slow_peer true 0x5A) (S n) world0 /\
    i2c_check_idle (slow_peer true 0x5A) 3 0x4 world0 =
    Some (tt, after_polls (slow_peer true 0x5A) (S k) world0).
Proof.
  apply (narrower_mask_returns_no_later (slow_peer true 0x5A) 0x5 0x4 3
           world0 (after_polls (slow_peer true 0x5A) 3 world0) tt).
  - reflexivity.
  - vm_compute. reflexivity.
Defined.

(** ** The acknowledge bit at the end of a receive *)

Lemma get_set_con2_other (c c' : con2bit) (v : bool) (h : regs) :
  c <> c' -> get_con2 c (set_con2 c' v h) = get_con2 c h.
Proof.
  intros Hne. unfold get_con2, set_con2. cbn [set_reg sspcon2].
  assert (Hp : bitpos c' <> bitpos c)
    by (destruct c, c'; cbn; congruence || discriminate).
  destruct v.
  - rewrite Z.setbit_neq; [reflexivity| |exact Hp];
      destruct c'; cbn; lia.
  - rewrite Z.clearbit_neq; [reflexivity|exact Hp].
Qed.

(** X6: when the environment does not act between the last two writes of
    [i2c_receive], SSPCON2 holds at the return the acknowledge bit that the
    caller asked for (the low bit of [ack]) together with ACKEN: the write
    of ACKEN leaves ACKDT as it is. *)
Theorem receive_leaves_ack_bit (char_signed : bool) (sched : schedule)
        (fuel : nat) (ack : Z) (w w' : world) (r : Z) :
  i2c_receive char_signed sched fuel ack w = Some (r, w') ->
  sched (Nat.pred (clock w')) = [] ->
  get_con2 ACKDT (hw w') = Z.b2z (Z.odd ack) /\
  get_con2 ACKEN (hw w') = 1.
Proof.
  intros H Hq. unfold i2c_receive in H.
  apply bind_inv in H as (u1 & w1 & H1 & H).
  apply bind_inv in H as (u2 & w2 & H2 & H).
  apply bind_inv in H as (u3 & w3 & H3 & H).
  apply bind_inv in H as (dt & w4 & H4 & H).
  apply bind_inv in H as (u5 & w5 & H5 & H).
  apply bind_inv in H as (u6 & w6 & H6 & H). apply lift_inv in H6.
  apply bind_inv in H as (u7 & w7 & H7 & H). apply lift_inv in H7.
  unfold ret in H. injection H as _ <-.
  unfold write_con2 in H6, H7.
  injection H6 as _ <-. injection H7 as _ <-.
  cbn [clock log with_hw tick Nat.pred] in Hq.
  cbn [hw log with_hw].
  split; [|apply get_set_con2].
  rewrite get_set_con2_other by discriminate.
  unfold tick at 1. cbn [hw clock log with_hw]. rewrite Hq.
  cbn [fold_left hw log with_hw]. apply get_set_con2.
Qed.

(** receiveByte(1) against a peer that answers during the first nine steps
    and is silent at the tenth, the write of ACKEN: ACKDT is 1 at the
    return. *)
Lemma receive_leaves_ack_bit_witness :
  get_con2 ACKDT
    (hw (run_world (i2c_receive false (peer_until 9 true 0x5A) 1 1 world0)))
  = 1 /\
  get_con2 ACKEN
    (hw (run_world (i2c_receive false (peer_until 9 true 0x5A) 1 1 world0)))
  = 1.
Proof.
  refine (receive_leaves_ack_bit false (peer_until 9 true 0x5A) 1 1 world0
            _ 0x5A _ _).
  - vm_compute. reflexivity.
  - reflexivity.
Defined.

(** ** Against a peripheral that answers at once *)

Lemma wait_ack_clear (sched : schedule) (fuel : nat) (w : world) :
  ack_flag w = 0 ->
  wait_ack sched (S fuel) w = Some (tt, snd (load_ack_flag sched w)).
Proof.
  intros F0. rewrite wait_ack_S. unfold load_ack_flag at 1. cbn [fst].
  rewrite (tick_flag_zero sched w F0). reflexivity.
Qed.








(** ** What initialization leaves behind *)

Lemma tick_quiet (sched : schedule) (w : world) :
  sched (clock w) = [] ->
  tick sched w = mkWorld (hw w) (ack_flag w) (S (clock w)) (trace w).
Proof. unfold tick. intros ->. reflexivity. Qed.

(** X8: when the environment does not act during the nine writes of
    [i2c_init_master], the peripheral is left in master mode (SSPCON1 =
    0x28) with SSPSTAT = 0 and SSPADD = 0x77, the four interrupt enables
    set and both pending flags clear; SSPCON2, SSPBUF and [ack_flag] are as
    they were before: initialization resets neither a condition bit nor
    the flag. *)
Theorem init_leaves (sched : schedule) (w : world) :
  quiet_for 9 (clock w) sched ->
  exists w',
    i2c_init_master sched w = Some (tt, w') /\
    hw w' = mkRegs 0x28 (sspcon2 (hw w)) 0 0x77 (sspbuf (hw w))
                   false false true true true true /\
    ack_flag w' = ack_flag w /\
    clock w' = (clock w + 9)%nat /\
    trace w' = trace w ++ init_events.
Proof.
  intros Hq. destruct w as [h f c t]. cbn [clock] in Hq.
  assert (H0 : sched c = [])
    by (rewrite <- (Nat.add_0_r c); apply Hq; lia).
  assert (H1 : sched (S c) = [])
    by (replace (S c) with (c + 1)%nat by lia; apply Hq; lia).
  assert (H2 : sched (S (S c)) = [])
    by (replace (S (S c)) with (c + 2)%nat by lia; apply Hq; lia).
  assert (H3 : sched (S (S (S c))) = [])
    by (replace (S (S (S c))) with (c + 3)%nat by lia; apply Hq; lia).
  assert (H4 : sched (S (S (S (S c)))) = [])
    by (replace (S (S (S (S c)))) with (c + 4)%nat by lia; apply Hq; lia).
  assert (H5 : sched (S (S (S (S (S c))))) = [])
    by (replace (S (S (S (S (S c))))) with (c + 5)%nat by lia;
        apply Hq; lia).
  assert (H6 : sched (S (S (S (S (S (S c)))))) = [])
    by (replace (S (S (S (S (S (S c)))))) with (c + 6)%nat by lia;
        apply Hq; lia).
  assert (H7 : sched (S (S (S (S (S (S (S c))))))) = [])
    by (replace (S (S (S (S (S (S (S c))))))) with (c + 7)%nat by lia;
        apply Hq; lia).
  assert (H8 : sched (S (S (S (S (S (S (S (S c)))))))) = [])
    by (replace (S (S (S (S (S (S (S (S c)))))))) with (c + 8)%nat by lia;
        apply Hq; lia).
  eexists. split.
  - unfold i2c_init_master, bind, lift, write_reg, write_sfr.
    repeat (rewrite tick_quiet by (cbn [clock log with_hw]; assumption);
            cbn [hw ack_flag clock trace log with_hw]).
    reflexivity.
  - destruct h as [c1 c2 st ad bf si bc se be pe ge]. cbn.
    repeat split; try lia.
    rewrite <- !app_assoc. reflexivity.
Qed.

(** On the world at reset with the peripheral silent. *)
Lemma init_leaves_witness :
  exists w',
    i2c_init_master dead world0 = Some (tt, w') /\
    hw w' = mkRegs 0x28 0 0 0x77 0 false false true true true true /\
    ack_flag w' = 0 /\
    clock w' = 9%nat /\
    trace w' = init_events.
Proof.
  apply (init_leaves dead world0). intros k _. reflexivity.
Defined.

(** * The transfers: events, handler runs and registers *)

(** ** Where the runs of the handler fall *)

Lemma tick_trace (sched : schedule) (w : world) :
  exists d, trace (tick sched w) = trace w ++ d /\ main d = [] /\
            isr_effect (ack_flag w) (ack_flag (tick sched w)) (bridge d).
Proof.
  destruct (tick_seg sched w) as (b & (d & T & Md & Bd) & I).
  exists d. subst b. auto.
Qed.

Lemma isr_effect_one (f : Z) (b : list bridge_event) :
  isr_effect 1 f b -> (f = 1 /\ b = []) \/ (f = 0 /\ b = [Clear]).
Proof. intros H. inversion H; subst; auto. Qed.

Lemma bridge_clear_in (d : list event) :
  In Clear (bridge d) -> exists bcl, In (EvIsr true bcl 1) d.
Proof.
  induction d as [|e d IH]; cbn; [contradiction|].
  intros H. apply in_app_or in H as [H|H].
  - destruct e as [r v|r v|b v|b v|b v|v|v|ssp bcl flag]; cbn in H;
      try contradiction.
    + destruct (v =? 0); cbn in H; [destruct H as [H|[]]; discriminate
                                    |contradiction].
    + destruct (v =? 1); cbn in H; [destruct H as [H|[]]; discriminate
                                    |contradiction].
    + destruct ssp; cbn in H; [|contradiction].
      destruct (flag =? 1) eqn:E; cbn in H; [|contradiction].
      apply Z.eqb_eq in E. subst flag. exists bcl. left. reflexivity.
  - destruct (IH H) as (bcl & Hin). exists bcl. right. exact Hin.
Qed.

Lemma transmit_transfer (sched : schedule) (byte : Z) (fuel : nat)
      (w w' : world) (r : Z) :
  (lift (store_ack_flag sched 1) ;;;
   lift (write_reg sched SSPBUF byte) ;;;
   wait_ack sched fuel ;;;
   lift (read_con2 sched ACKSTAT)) w = Some (r, w') ->
  exists d0 d2 d3,
    trace w' = trace w ++ d0 ++ [EvFlagWrite 1] ++ d2 ++
               [EvWrite SSPBUF (to_uchar byte)] ++ d3 ++
               [EvBitRead ACKSTAT r] /\
    main d0 = [] /\
    (ack_flag w = 0 -> bridge d0 = []) /\
    main d2 = [] /\
    flag_wait (main d3) /\
    ((bridge d2 = [] /\ bridge d3 = [Clear; Return]) \/
     (bridge d2 = [Clear] /\ bridge d3 = [Return])) /\
    (exists bcl, In (EvIsr true bcl 1) (d2 ++ d3)).
Proof.
  intros H.
  apply bind_inv in H as (u1 & w1 & H1 & H). apply lift_inv in H1.
  apply bind_inv in H as (u2 & w2 & H2 & H). apply lift_inv in H2.
  apply bind_inv in H as (u3 & w3 & H3 & H). apply lift_inv in H.
  destruct (tick_trace sched w) as (d0 & T0 & M0 & I0).
  assert (A1 : trace w1 = trace w ++ d0 ++ [EvFlagWrite 1] /\
               ack_flag w1 = 1).
  { unfold store_ack_flag in H1. injection H1 as _ <-.
    split; [|reflexivity].
    change (trace (tick sched w) ++ [EvFlagWrite 1] =
            trace w ++ d0 ++ [EvFlagWrite 1]).
    rewrite T0, <- app_assoc. reflexivity. }
  destruct A1 as [T1 F1].
  destruct (tick_trace sched w1) as (d2 & T2 & M2 & I2). rewrite F1 in I2.
  assert (A2 : trace w2 = trace w1 ++ d2 ++ [EvWrite SSPBUF (to_uchar byte)]
               /\ ack_flag w2 = ack_flag (tick sched w1)).
  { unfold write_reg in H2. injection H2 as _ <-.
    split; [|reflexivity].
    change (trace (tick sched w1) ++ [EvWrite SSPBUF (to_uchar byte)] =
            trace w1 ++ d2 ++ [EvWrite SSPBUF (to_uchar byte)]).
    rewrite T2, <- app_assoc. reflexivity. }
  destruct A2 as [T2' F2].
  destruct (wait_ack_run _ _ _ _ _ H3)
    as (m & b3 & (d3 & T3 & M3 & B3) & W3 & I3 & F3).
  rewrite F2 in I3.
  destruct (tick_trace sched w3) as (d4 & T4 & M4 & I4).
  rewrite F3 in I4. apply isr_effect_zero in I4 as [_ B4].
  assert (A4 : trace w' = trace w3 ++ d4 ++ [EvBitRead ACKSTAT r]).
  { unfold read_con2 in H. injection H as <- <-.
    change (trace (tick sched w3) ++
            [EvBitRead ACKSTAT (get_con2 ACKSTAT (hw (tick sched w3)))] =
            trace w3 ++ d4 ++
            [EvBitRead ACKSTAT (get_con2 ACKSTAT (hw (tick sched w3)))]).
    rewrite T4, <- app_assoc. reflexivity. }
  assert (Bd3 : bridge (d3 ++ d4) = b3 ++ [Return])
    by (rewrite bridge_app, B3, B4, app_nil_r; reflexivity).
  assert (C : (bridge d2 = [] /\ bridge (d3 ++ d4) = [Clear; Return]) \/
              (bridge d2 = [Clear] /\ bridge (d3 ++ d4) = [Return])).
  { rewrite Bd3. destruct (isr_effect_one _ _ I2) as [[E2 B2]|[E2 B2]].
    - left. split; [exact B2|].
      rewrite E2 in I3. apply isr_effect_armed in I3. rewrite I3.
      reflexivity.
    - right. split; [exact B2|].
      rewrite E2 in I3. apply isr_effect_zero in I3 as [_ ->].
      reflexivity. }
  exists d0, d2, (d3 ++ d4). repeat split.
  - rewrite A4, T3, T2', T1. rewrite <- !app_assoc. reflexivity.
  - exact M0.
  - intros F0. rewrite F0 in I0. apply isr_effect_zero in I0. tauto.
  - exact M2.
  - rewrite main_app, M3, M4, app_nil_r. exact W3.
  - exact C.
  - apply bridge_clear_in. rewrite bridge_app.
    destruct C as [[C2 C3]|[C2 C3]]; rewrite C2, C3; cbn; auto.
Qed.

Lemma address_phase_transfer (sched : schedule) (c : con2bit) (fuel : nat)
      (adrs rw : Z) (w w' : world) (r : Z) :
  address_phase sched c fuel adrs rw w = Some (r, w') ->
  armed_transfer (Some c) ((2 * adrs + rw) mod 256) r w w'.
Proof.
  intros H. unfold address_phase in H.
  apply bind_inv in H as (u1 & w1 & H1 & H).
  apply bind_inv in H as (u2 & w2 & H2 & H). apply lift_inv in H2.
  apply bind_inv in H as (u3 & w3 & H3 & H).
  destruct (check_idle_run _ _ _ _ _ _ H1) as (m1 & b1 & S1 & W1 & I1).
  destruct (write_con2_run sched c true w1) as (b2 & S2 & I2 & _).
  rewrite H2 in S2, I2; cbn [snd] in S2, I2.
  destruct (check_idle_run _ _ _ _ _ _ H3) as (m2 & b3 & S3 & W3 & I3).
  destruct (seg_trans _ _ _ _ _ _ _ (seg_trans _ _ _ _ _ _ _ S1 S2) S3)
    as (dp & Tp & Mp & Bp).
  destruct (transmit_transfer _ _ _ _ _ _ H)
    as (d0 & d2 & d3 & T & M0 & B0 & M2 & W & C & E).
  exists (dp ++ d0), d2, d3. repeat split; auto.
  - rewrite T, Tp. unfold to_uchar. rewrite Z.mod_mod by lia.
    rewrite <- !app_assoc. reflexivity.
  - cbn [prelude]. exists m1, m2. rewrite main_app, Mp, M0, app_nil_r.
    rewrite <- app_assoc. auto.
  - intros F0. rewrite bridge_app, Bp.
    rewrite F0 in I1. apply isr_effect_zero in I1 as [F1 ->].
    rewrite F1 in I2. apply isr_effect_zero in I2 as [F2 ->].
    rewrite F2 in I3. apply isr_effect_zero in I3 as [F3 ->].
    rewrite (B0 F3). reflexivity.
Qed.

Lemma i2c_send_transfer (sched : schedule) (fuel : nat) (dt : Z)
      (w w' : world) (r : Z) :
  i2c_send sched fuel dt w = Some (r, w') ->
  armed_transfer None (dt mod 256) r w w'.
Proof.
  intros H. unfold i2c_send in H.
  apply bind_inv in H as (u1 & w1 & H1 & H).
  destruct (check_idle_run _ _ _ _ _ _ H1)
    as (m1 & b1 & (dp & Tp & Mp & Bp) & W1 & I1).
  destruct (transmit_transfer _ _ _ _ _ _ H)
    as (d0 & d2 & d3 & T & M0 & B0 & M2 & W & C & E).
  exists (dp ++ d0), d2, d3. repeat split; auto.
  - rewrite T, Tp. rewrite <- !app_assoc. reflexivity.
  - cbn [prelude]. rewrite main_app, Mp, M0, app_nil_r. exact W1.
  - intros F0. rewrite bridge_app, Bp.
    rewrite F0 in I1. apply isr_effect_zero in I1 as [F1 ->].
    rewrite (B0 F1). reflexivity.
Qed.

(** ** What stays in SSPBUF *)

Lemma env_steps_keep_buffer (evs : list env_event) :
  (forall f, In (Hw f) evs -> forall h, sspbuf (f h) = sspbuf h) ->
  forall w, sspbuf (hw (fold_left env_step evs w)) = sspbuf (hw w).
Proof.
  induction evs as [|e evs IH]; intros Hf w; cbn [fold_left]; [reflexivity|].
  rewrite IH by (intros f Hin; apply Hf; right; exact Hin).
  destruct e as [f|]; cbn [env_step].
  - apply (Hf f). left. reflexivity.
  - rewrite i2c_interrupt_hw. destruct (hw w); reflexivity.
Qed.

Lemma tick_keeps_buffer (sched : schedule) (w : world) :
  keeps_buffer sched -> sspbuf (hw (tick sched w)) = sspbuf (hw w).
Proof.
  intros Hk. unfold tick. cbn [hw].
  apply env_steps_keep_buffer. intros f Hin. apply (Hk (clock w) f Hin).
Qed.

Lemma poll_keeps_buffer (sched : schedule) (w : world) :
  keeps_buffer sched -> sspbuf (hw (snd (poll sched w))) = sspbuf (hw w).
Proof.
  intros Hk. unfold poll, read_reg. cbn [snd].
  change (sspbuf (hw (tick sched
                        (log (EvRead SSPCON2
                                (byte_of (hw (tick sched w)) SSPCON2))
                           (tick sched w)))) = sspbuf (hw w)).
  rewrite (tick_keeps_buffer sched _ Hk).
  change (sspbuf (hw (tick sched w)) = sspbuf (hw w)).
  apply (tick_keeps_buffer sched w Hk).
Qed.

Lemma check_idle_keeps_buffer (sched : schedule) (fuel : nat) (mask : Z) :
  keeps_buffer sched ->
  forall w u w',
    i2c_check_idle sched fuel mask w = Some (u, w') ->
    sspbuf (hw w') = sspbuf (hw w).
Proof.
  intros Hk. induction fuel as [|fuel IH]; intros w u w' H; [discriminate|].
  rewrite check_idle_S in H.
  destruct (busy mask (fst (poll sched w)) =? 0).
  - injection H as _ <-. apply poll_keeps_buffer, Hk.
  - rewrite (IH _ _ _ H). apply poll_keeps_buffer, Hk.
Qed.

Lemma wait_ack_keeps_buffer (sched : schedule) (fuel : nat) :
  keeps_buffer sched ->
  forall w u w',
    wait_ack sched fuel w = Some (u, w') -> sspbuf (hw w') = sspbuf (hw w).
Proof.
  intros Hk. induction fuel as [|fuel IH]; intros w u w' H; [discriminate|].
  rewrite wait_ack_S in H.
  assert (E : sspbuf (hw (snd (load_ack_flag sched w))) = sspbuf (hw w))
    by (apply (tick_keeps_buffer sched w Hk)).
  destruct (fst (load_ack_flag sched w) =? 0).
  - injection H as _ <-. exact E.
  - rewrite (IH _ _ _ H). exact E.
Qed.

Lemma write_con2_keeps_buffer (sched : schedule) (c : con2bit) (v : bool)
      (w : world) :
  keeps_buffer sched ->
  sspbuf (hw (snd (write_con2 sched c v w))) = sspbuf (hw w).
Proof.
  intros Hk.
  change (sspbuf (hw (tick sched w)) = sspbuf (hw w)).
  apply (tick_keeps_buffer sched w Hk).
Qed.

Lemma transmit_buffer (sched : schedule) (byte : Z) (fuel : nat)
      (w w' : world) (r : Z) :
  keeps_buffer sched ->
  (lift (store_ack_flag sched 1) ;;;
   lift (write_reg sched SSPBUF byte) ;;;
   wait_ack sched fuel ;;;
   lift (read_con2 sched ACKSTAT)) w = Some (r, w') ->
  sspbuf (hw w') = to_uchar byte.
Proof.
  intros Hk H.
  apply bind_inv in H as (u1 & w1 & H1 & H). apply lift_inv in H1.
  apply bind_inv in H as (u2 & w2 & H2 & H). apply lift_inv in H2.
  apply bind_inv in H as (u3 & w3 & H3 & H). apply lift_inv in H.
  assert (E2 : sspbuf (hw w2) = to_uchar byte).
  { unfold write_reg in H2. injection H2 as _ <-. reflexivity. }
  rewrite <- E2, <- (wait_ack_keeps_buffer sched fuel Hk _ _ _ H3).
  unfold read_con2 in H. injection H as _ <-.
  apply (tick_keeps_buffer sched w3 Hk).
Qed.

Lemma address_phase_buffer (sched : schedule) (c : con2bit) (fuel : nat)
      (adrs rw : Z) (w w' : world) (r : Z) :
  keeps_buffer sched ->
  address_phase sched c fuel adrs rw w = Some (r, w') ->
  sspbuf (hw w') = (2 * adrs + rw) mod 256.
Proof.
  intros Hk H. unfold address_phase in H.
  apply bind_inv in H as (u1 & w1 & H1 & H).
  apply bind_inv in H as (u2 & w2 & H2 & H).
  apply bind_inv in H as (u3 & w3 & H3 & H).
  rewrite (transmit_buffer _ _ _ _ _ _ Hk H).
  unfold to_uchar. apply Z.mod_mod. lia.
Qed.

Lemma i2c_send_buffer (sched : schedule) (fuel : nat) (dt : Z)
      (w w' : world) (r : Z) :
  keeps_buffer sched ->
  i2c_send sched fuel dt w = Some (r, w') ->
  sspbuf (hw w') = dt mod 256.
Proof.
  intros Hk H. unfold i2c_send in H.
  apply bind_inv in H as (u1 & w1 & H1 & H).
  apply (transmit_buffer _ _ _ _ _ _ Hk H).
Qed.

Lemma tx_peer_keeps_buffer (acked : bool) : keeps_buffer (tx_peer acked).
Proof.
  intros t f [Hin|[Hin|[]]]; [|discriminate].
  injection Hin as <-. intros h. reflexivity.
Qed.

(** ** Without a completion signal *)

Lemma address_phase_never_pending (sched : schedule) (c : con2bit)
      (fuel : nat) (adrs rw : Z) (w : world) :
  never_pending sched -> sspif (hw w) = false ->
  address_phase sched c fuel adrs rw w = None.
Proof.
  intros Hn Hw. unfold address_phase. unfold bind at 1.
  destruct (i2c_check_idle sched fuel 5 w) as [[u1 w1]|] eqn:H1;
    [|reflexivity].
  destruct (check_idle_never_pending sched fuel 5 Hn _ _ _ Hw H1)
    as [Hw1 _].
  pose proof (write_con2_never_pending sched c true w1 Hn Hw1) as Hw2.
  unfold bind at 1. unfold lift at 1.
  destruct (write_con2 sched c true w1) as [u2 w2]. cbn [snd] in Hw2.
  unfold bind at 1.
  destruct (i2c_check_idle sched fuel 5 w2) as [[u3 w3]|] eqn:H3;
    [|reflexivity].
  destruct (check_idle_never_pending sched fuel 5 Hn _ _ _ Hw2 H3)
    as [Hw3 _].
  apply transmit_never_pending; assumption.
Qed.

Lemma i2c_send_never_pending (sched : schedule) (fuel : nat) (dt : Z)
      (w : world) :
  never_pending sched -> sspif (hw w) = false ->
  i2c_send sched fuel dt w = None.
Proof.
  intros Hn Hw. unfold i2c_send. unfold bind at 1.
  destruct (i2c_check_idle sched fuel 5 w) as [[u1 w1]|] eqn:H1;
    [|reflexivity].
  destruct (check_idle_never_pending sched fuel 5 Hn _ _ _ Hw H1)
    as [Hw1 _].
  apply transmit_never_pending; assumption.
Qed.

Lemma dispatch_at_never_pending (n : nat) : never_pending (dispatch_at n).
Proof.
  intros t f Hin. unfold dispatch_at in Hin.
  destruct (Nat.eqb t n); [destruct Hin as [Hin|[]]; discriminate
                          |contradiction].
Qed.

(** ** The address byte *)

Lemma address_byte_low7 (a d : Z) :
  0 <= a < 256 -> (Z.shiftl a 1 + d) mod 256 = (2 * (a mod 128) + d) mod 256.
Proof.
  intros Ha. rewrite Z.shiftl_mul_pow2 by lia. change (2 ^ 1) with 2.
  rewrite (Z.div_mod a 128) at 1 by lia.
  replace ((128 * (a / 128) + a mod 128) * 2 + d)
    with (2 * (a mod 128) + d + (a / 128) * 256) by lia.
  apply Z.mod_add. lia.
Qed.

(** C1, as stated, fails in its last clause: start(0xD0,0) and start(0x50,0)
    load the same byte 0xA0 into SSPBUF, and start(0x80,0) loads 0x00: bit 7
    of the address, the bit out of the 7-bit range, is not in the byte. *)
Lemma address_bit7_not_in_byte :
  i2c_start (tx_peer true) 1 0xD0 0 world0 =
  Some (0, run_world (i2c_start (tx_peer true) 1 0xD0 0 world0)) /\
  i2c_start (tx_peer true) 1 0x50 0 world0 =
  Some (0, run_world (i2c_start (tx_peer true) 1 0x50 0 world0)) /\
  i2c_start (tx_peer true) 1 0x80 0 world0 =
  Some (0, run_world (i2c_start (tx_peer true) 1 0x80 0 world0)) /\
  sspbuf (hw (run_world (i2c_start (tx_peer true) 1 0xD0 0 world0))) = 0xA0 /\
  sspbuf (hw (run_world (i2c_start (tx_peer true) 1 0x50 0 world0))) = 0xA0 /\
  sspbuf (hw (run_world (i2c_start (tx_peer true) 1 0x80 0 world0))) = 0x00.
Proof.
  repeat (apply conj; [vm_compute; reflexivity|]). vm_compute. reflexivity.
Qed.

(** C1, amended: for every 8-bit address [a] and direction bit [d], a run
    of [i2c_start] that returns has written SEN, then armed the flag and
    loaded SSPBUF once, with [((a << 1) + d) mod 256], which is
    [2 * (a mod 128) + d]: the address is not checked and its bit 7 is
    shifted out of the byte.  The value is in SSPBUF at the return whenever
    the peripheral does not overwrite the buffer.  The same holds for
    [i2c_rstart] with RSEN, whatever the signedness of [char].  The
    condition bit is set in SSPCON2 itself: when the peripheral never
    clears it the operation does not return.  Both operations return when
    the peripheral settles and the completion interrupt arrives. *)
Theorem address_byte_loaded (char_signed : bool) (sched : schedule)
        (a d : Z) :
  0 <= a < 256 -> d = 0 \/ d = 1 ->
  (Z.shiftl a 1 + d) mod 256 = 2 * (a mod 128) + d /\
  (forall fuel w r w',
      i2c_start sched fuel a d w = Some (r, w') ->
      armed_transfer (Some SEN) ((Z.shiftl a 1 + d) mod 256) r w w' /\
      (keeps_buffer sched ->
       sspbuf (hw w') = (Z.shiftl a 1 + d) mod 256)) /\
  (forall fuel w r w',
      i2c_rstart char_signed sched fuel a d w = Some (r, w') ->
      armed_transfer (Some RSEN) ((Z.shiftl a 1 + d) mod 256) r w w' /\
      (keeps_buffer sched ->
       sspbuf (hw w') = (Z.shiftl a 1 + d) mod 256)) /\
  (keeps_bit SEN sched ->
   forall fuel w, i2c_start sched fuel a d w = None) /\
  (keeps_bit RSEN sched ->
   forall fuel w, i2c_rstart char_signed sched fuel a d w = None) /\
  (bus_settles sched -> signal_arrives sched ->
   forall w, exists fuel r1 w1 r2 w2,
       i2c_start sched fuel a d w = Some (r1, w1) /\
       i2c_rstart char_signed sched fuel a d w = Some (r2, w2)).
Proof.
  intros Ha Hd.
  assert (E : (Z.shiftl a 1 + d) mod 256 = (2 * a + d) mod 256).
  { rewrite Z.shiftl_mul_pow2 by lia. f_equal. change (2 ^ 1) with 2. lia. }
  split.
  { rewrite (address_byte_low7 a d Ha). apply Z.mod_small.
    pose proof (Z.mod_pos_bound a 128 ltac:(lia)). lia. }
  rewrite E. repeat match goal with |- _ /\ _ => split end.
  - intros fuel w r w' H. rewrite i2c_start_address_phase in H. split.
    + apply (address_phase_transfer _ _ _ _ _ _ _ _ H).
    + intros Hk. apply (address_phase_buffer _ _ _ _ _ _ _ _ Hk H).
  - intros fuel w r w' H. rewrite i2c_rstart_address_phase in H. split.
    + apply (address_phase_transfer _ _ _ _ _ _ _ _ H).
    + intros Hk. apply (address_phase_buffer _ _ _ _ _ _ _ _ Hk H).
  - intros Hk fuel w. unfold i2c_start.
    apply assert_then_wait_stuck; [exact Hk|cbn; auto].
  - intros Hk fuel w. unfold i2c_rstart.
    apply assert_then_wait_stuck; [exact Hk|cbn; auto].
  - intros Hb Hs w.
    destruct (address_phase_live sched SEN a d w Hb Hs) as (n1 & r1 & w1 & H1).
    destruct (address_phase_live sched RSEN a d w Hb Hs)
      as (n2 & r2 & w2 & H2).
    exists (Nat.max n1 n2), r1, w1, r2, w2.
    rewrite i2c_start_address_phase, i2c_rstart_address_phase.
    split; [apply H1|apply H2]; lia.
Qed.

(** start(0x50,0) and repeatedStart(0x50,1) against a peer that answers
    and leaves the buffer alone: they return, SSPBUF holds 0xA0 and
    0xA1. *)
Lemma address_byte_loaded_witness :
  i2c_start (tx_peer true) 1 0x50 0 world0 =
  Some (0, run_world (i2c_start (tx_peer true) 1 0x50 0 world0)) /\
  sspbuf (hw (run_world (i2c_start (tx_peer true) 1 0x50 0 world0))) = 0xA0 /\
  i2c_rstart false (tx_peer true) 1 0x50 1 world0 =
  Some (0, run_world (i2c_rstart false (tx_peer true) 1 0x50 1 world0)) /\
  sspbuf (hw (run_world (i2c_rstart false (tx_peer true) 1 0x50 1 world0)))
  = 0xA1.
Proof.
  assert (R : 0 <= 0x50 < 256) by lia.
  assert (E0 : i2c_start (tx_peer true) 1 0x50 0 world0 =
               Some (0, run_world (i2c_start (tx_peer true) 1 0x50 0 world0)))
    by (vm_compute; reflexivity).
  assert (E1 : i2c_rstart false (tx_peer true) 1 0x50 1 world0 =
               Some (0, run_world
                          (i2c_rstart false (tx_peer true) 1 0x50 1 world0)))
    by (vm_compute; reflexivity).
  destruct (address_byte_loaded false (tx_peer true) 0x50 0 R
              (or_introl eq_refl)) as (_ & H0 & _).
  destruct (address_byte_loaded false (tx_peer true) 0x50 1 R
              (or_intror eq_refl)) as (_ & _ & H1 & _).
  split; [exact E0|]. split.
  - exact (proj2 (H0 _ _ _ _ E0) (tx_peer_keeps_buffer true)).
  - split; [exact E1|].
    exact (proj2 (H1 _ _ _ _ E1) (tx_peer_keeps_buffer true)).
Defined.

(** ** The acknowledgement status *)





(** ** The receive *)

Lemma masked_clear_5 (s : Z) :
  masked_clear 0x5 s <->
  Z.testbit s BF = false /\ Z.testbit s R_W = false.
Proof.
  unfold masked_clear, BF, R_W. split.
  - intros H. split; apply H; try lia; reflexivity.
  - intros [H0 H2] i Hi Hm.
    destruct (Z_lt_le_dec i 3) as [Hlt|Hge].
    + assert (Hc : i = 0 \/ i = 1 \/ i = 2) by lia.
      destruct Hc as [->|[->| ->]]; [exact H0|discriminate|exact H2].
    + rewrite Z.bits_above_log2 in Hm; [discriminate|lia|].
      change (Z.log2 5) with 2. lia.
Qed.

Lemma masked_clear_4 (s : Z) :
  masked_clear 0x4 s <-> Z.testbit s R_W = false.
Proof.
  unfold masked_clear, R_W. split.
  - intros H. apply H; [lia|reflexivity].
  - intros H2 i Hi Hm.
    change 4 with (2 ^ 2) in Hm. rewrite Z.pow2_bits_eqb in Hm by lia.
    apply Z.eqb_eq in Hm. subst i. exact H2.
Qed.

Lemma i2c_receive_ack_bits (char_signed : bool) (sched : schedule)
      (fuel : nat) (ack : Z) (w w' : world) (r : Z) :
  i2c_receive char_signed sched fuel ack w = Some (r, w') ->
  sched (Nat.pred (clock w')) = [] ->
  get_con2 ACKDT (hw w') = Z.b2z (Z.odd ack).
Proof.
  intros H Hq. unfold i2c_receive in H.
  apply bind_inv in H as (u1 & w1 & H1 & H).
  apply bind_inv in H as (u2 & w2 & H2 & H).
  apply bind_inv in H as (u3 & w3 & H3 & H).
  apply bind_inv in H as (dt & w4 & H4 & H).
  apply bind_inv in H as (u5 & w5 & H5 & H).
  apply bind_inv in H as (u6 & w6 & H6 & H). apply lift_inv in H6.
  apply bind_inv in H as (u7 & w7 & H7 & H). apply lift_inv in H7.
  unfold ret in H. injection H as _ <-.
  unfold write_con2 in H6, H7.
  injection H6 as _ <-. injection H7 as _ <-.
  cbn [clock log with_hw tick Nat.pred] in Hq.
  cbn [hw log with_hw].
  rewrite get_set_con2_other by discriminate.
  unfold tick at 1. cbn [hw clock log with_hw]. rewrite Hq.
  cbn [fold_left hw log with_hw]. apply get_set_con2.
Qed.

Lemma i2c_receive_buffer (char_signed : bool) (sched : schedule)
      (fuel : nat) (ack : Z) (w w' : world) (r : Z) :
  keeps_buffer sched ->
  i2c_receive char_signed sched fuel ack w = Some (r, w') ->
  r = to_char char_signed (sspbuf (hw w)).
Proof.
  intros Hk H. unfold i2c_receive in H.
  apply bind_inv in H as (u1 & w1 & H1 & H).
  apply bind_inv in H as (u2 & w2 & H2 & H). apply lift_inv in H2.
  apply bind_inv in H as (u3 & w3 & H3 & H).
  apply bind_inv in H as (dt & w4 & H4 & H). apply lift_inv in H4.
  apply bind_inv in H as (u5 & w5 & H5 & H).
  apply bind_inv in H as (u6 & w6 & H6 & H).
  apply bind_inv in H as (u7 & w7 & H7 & H).
  unfold ret in H. injection H as <- _. f_equal.
  pose proof (check_idle_keeps_buffer sched fuel 5 Hk _ _ _ H1) as E1.
  pose proof (write_con2_keeps_buffer sched RCEN true w1 Hk) as E2.
  rewrite H2 in E2. cbn [snd] in E2.
  pose proof (check_idle_keeps_buffer sched fuel 4 Hk _ _ _ H3) as E3.
  unfold read_reg in H4. injection H4 as <- _.
  change (sspbuf (hw (tick sched w3)) = sspbuf (hw w)).
  rewrite (tick_keeps_buffer sched w3 Hk). congruence.
Qed.

(** C3, as stated, fails in what it says of the second wait: the mask 0x4
    leaves out no sign of a byte in flight.  While R/W is set the wait on
    0x4 does not end; while RCEN is set (receive enabled on a peripheral
    that never finishes) [i2c_receive] does not get past it; the one bit
    that 0x4 leaves out of 0x5 is BF, which is set when the byte has
    arrived: with BF set the wait on 0x4 ends at once and the wait on 0x5
    does not end. *)
Lemma second_wait_keeps_receive_enable :
  i2c_check_idle in_flight 100 0x4 world0 = None /\
  i2c_receive false dead 100 1 world0 = None /\
  i2c_check_idle (arrived 0x5A) 1 0x4 world0 =
  Some (tt, run_world (i2c_check_idle (arrived 0x5A) 1 0x4 world0)) /\
  i2c_check_idle (arrived 0x5A) 100 0x5 world0 = None.
Proof.
  repeat (apply conj; [vm_compute; reflexivity|]). vm_compute. reflexivity.
Qed.

(** C3, amended: a run of [i2c_receive] that returns consists, in this
    order, of an idle-wait on mask 0x5, the write of RCEN, an idle-wait on
    mask 0x4, one read of SSPBUF, an idle-wait on mask 0x5, the write of
    the low bit of [ack] to ACKDT (0 for ack = 0, 1 for ack = 1) and the
    write of ACKEN; the result is the byte read from SSPBUF, as a [char],
    for every [ack].  The writes reach SSPCON2: RCEN is set, so that the
    operation does not return when the peripheral never clears it; ACKEN is
    set at the return; ACKDT holds the low bit of [ack] at the return when
    the environment does not act between the last two writes.  The read
    takes what SSPBUF holds: the byte it held at the call when the
    peripheral has not written it.  The wait on 0x5 ends when the five
    condition bits, BF and R/W are zero; the wait on 0x4 ends when the five
    condition bits (RCEN among them) and R/W are zero: it leaves out BF
    only.  The operation returns when the peripheral settles. *)
Theorem receive_steps (char_signed : bool) (sched : schedule) :
  (forall fuel ack w r w',
      i2c_receive char_signed sched fuel ack w = Some (r, w') ->
      (exists m b byte,
          seg w w' m b /\ receive_events ack byte m /\
          r = to_char char_signed byte /\ to_uchar r = to_uchar byte) /\
      get_con2 ACKEN (hw w') = 1 /\
      (sched (Nat.pred (clock w')) = [] ->
       get_con2 ACKDT (hw w') = Z.b2z (Z.odd ack)) /\
      (sched (Nat.pred (clock w')) = [] -> ack = 0 \/ ack = 1 ->
       get_con2 ACKDT (hw w') = ack) /\
      (keeps_buffer sched -> r = to_char char_signed (sspbuf (hw w)))) /\
  (keeps_bit RCEN sched ->
   forall fuel ack w, i2c_receive char_signed sched fuel ack w = None) /\
  (forall cs,
      busy 0x5 cs = 0 <->
      conditions_clear (fst cs) /\
      Z.testbit (snd cs) BF = false /\ Z.testbit (snd cs) R_W = false) /\
  (forall cs,
      busy 0x4 cs = 0 <->
      conditions_clear (fst cs) /\ Z.testbit (snd cs) R_W = false) /\
  (bus_settles sched ->
   forall ack w, exists fuel r w',
       i2c_receive char_signed sched fuel ack w = Some (r, w')).
Proof.
  repeat match goal with |- _ /\ _ => split end.
  - intros fuel ack w r w' H.
    destruct (i2c_receive_run _ _ _ _ _ _ _ H)
      as (m1 & m2 & m3 & byte & b & S & W1 & W2 & W3 & R & _ & G).
    split; [|split; [exact G|split; [|split]]].
    + eexists. exists b, byte. split; [exact S|].
      split; [exists m1, m2, m3; auto|]. split; [exact R|].
      rewrite R. apply to_uchar_to_char.
    + intros Hq. apply (i2c_receive_ack_bits _ _ _ _ _ _ _ H Hq).
    + intros Hq [-> | ->];
        rewrite (i2c_receive_ack_bits _ _ _ _ _ _ _ H Hq); reflexivity.
    + intros Hk. apply (i2c_receive_buffer _ _ _ _ _ _ _ Hk H).
  - intros Hk fuel ack w. unfold i2c_receive.
    apply assert_then_wait_stuck; [exact Hk|cbn; auto 6].
  - intros cs. rewrite busy_zero_iff_idle. unfold idle.
    rewrite masked_clear_5. reflexivity.
  - intros cs. rewrite busy_zero_iff_idle. unfold idle.
    rewrite masked_clear_4. reflexivity.
  - intros Hb ack w.
    destruct (i2c_receive_live char_signed sched ack w Hb) as (n & r & w' & H).
    exists n, r, w'. apply H. lia.
Qed.

(** receiveByte(1) against a peer that answers during the first nine steps
    and is silent at the tenth: it returns 0x5A, and ACKEN and ACKDT = 1
    are in SSPCON2 at the return. *)
Lemma receive_steps_witness :
  i2c_receive false (peer_until 9 true 0x5A) 1 1 world0 =
  Some (0x5A,
        run_world (i2c_receive false (peer_until 9 true 0x5A) 1 1 world0)) /\
  get_con2 ACKEN
    (hw (run_world (i2c_receive false (peer_until 9 true 0x5A) 1 1 world0)))
  = 1 /\
  get_con2 ACKDT
    (hw (run_world (i2c_receive false (peer_until 9 true 0x5A) 1 1 world0)))
  = 1.
Proof.
  assert (E : i2c_receive false (peer_until 9 true 0x5A) 1 1 world0 =
              Some (0x5A,
                    run_world
                      (i2c_receive false (peer_until 9 true 0x5A) 1 1
                         world0)))
    by (vm_compute; reflexivity).
  destruct (receive_steps false (peer_until 9 true 0x5A)) as (H & _).
  destruct (H _ _ _ _ _ E) as (_ & G & D & _).
  split; [exact E|]. split; [exact G|].
  apply D. reflexivity.
Defined.

(** ** What is complete when a primitive returns, with the handler *)

(** C5, amended: [i2c_start], [i2c_rstart] and [i2c_send] return only after
    the handler has cleared the flag that they armed: in a run that returns,
    one run of the handler after the arming has found the completion signal
    pending and the flag at 1, the wait has ended after it and the flag is
    0 at the return; when no completion signal is pending at the call and
    the peripheral raises none, the three do not return.  [i2c_stop] and
    [i2c_receive] return right after the write of PEN and of ACKEN: that bit
    is still set at their return, so the idle condition does not hold then,
    for any mask; they return as soon as the idle-waits before that write
    end.  Each of the five begins with an idle-wait on mask 0x5, which is
    where the completion of what the previous primitive asserted is
    awaited. *)
Theorem primitives_completion (char_signed : bool) (sched : schedule) :
  (forall fuel a d w r w',
      i2c_start sched fuel a d w = Some (r, w') ->
      ack_flag w' = 0 /\
      exists byte, armed_transfer (Some SEN) byte r w w') /\
  (forall fuel a d w r w',
      i2c_rstart char_signed sched fuel a d w = Some (r, w') ->
      ack_flag w' = 0 /\
      exists byte, armed_transfer (Some RSEN) byte r w w') /\
  (forall fuel dt w r w',
      i2c_send sched fuel dt w = Some (r, w') ->
      ack_flag w' = 0 /\
      exists byte, armed_transfer None byte r w w') /\
  (never_pending sched ->
   forall w, sspif (hw w) = false ->
   forall fuel a d dt,
     i2c_start sched fuel a d w = None /\
     i2c_rstart char_signed sched fuel a d w = None /\
     i2c_send sched fuel dt w = None) /\
  (forall fuel w u w',
      i2c_stop sched fuel w = Some (u, w') ->
      get_con2 PEN (hw w') = 1 /\
      (forall mask s, busy mask (sspcon2 (hw w'), s) <> 0) /\
      exists m b, seg w w' m b /\ stop_events m) /\
  (forall fuel ack w r w',
      i2c_receive char_signed sched fuel ack w = Some (r, w') ->
      get_con2 ACKEN (hw w') = 1 /\
      (forall mask s, busy mask (sspcon2 (hw w'), s) <> 0) /\
      exists m b byte, seg w w' m b /\ receive_events ack byte m) /\
  (bus_settles sched ->
   forall ack w, exists fuel w1 r w2,
       i2c_stop sched fuel w = Some (tt, w1) /\
       i2c_receive char_signed sched fuel ack w = Some (r, w2)).
Proof.
  repeat match goal with |- _ /\ _ => split end.
  - intros fuel a d w r w' H. rewrite i2c_start_address_phase in H.
    destruct (address_phase_run _ _ _ _ _ _ _ _ H)
      as (_ & _ & _ & _ & _ & _ & _ & _ & _ & F & _).
    split; [exact F|].
    eexists. apply (address_phase_transfer _ _ _ _ _ _ _ _ H).
  - intros fuel a d w r w' H. rewrite i2c_rstart_address_phase in H.
    destruct (address_phase_run _ _ _ _ _ _ _ _ H)
      as (_ & _ & _ & _ & _ & _ & _ & _ & _ & F & _).
    split; [exact F|].
    eexists. apply (address_phase_transfer _ _ _ _ _ _ _ _ H).
  - intros fuel dt w r w' H.
    destruct (i2c_send_run _ _ _ _ _ _ H)
      as (_ & _ & _ & _ & _ & _ & _ & F & _).
    split; [exact F|].
    eexists. apply (i2c_send_transfer _ _ _ _ _ _ H).
  - intros Hn w Hw fuel a d dt.
    rewrite i2c_start_address_phase, i2c_rstart_address_phase.
    repeat split.
    + apply address_phase_never_pending; assumption.
    + apply address_phase_never_pending; assumption.
    + apply i2c_send_never_pending; assumption.
  - intros fuel w u w' H.
    destruct (i2c_stop_run _ _ _ _ _ H) as (m1 & b & S & W1 & _ & G).
    split; [exact G|]. split.
    + intros mask s. apply (condition_set_busy PEN); [cbn; auto|exact G].
    + eexists. exists b. split; [exact S|]. exists m1. auto.
  - intros fuel ack w r w' H.
    destruct (i2c_receive_run _ _ _ _ _ _ _ H)
      as (m1 & m2 & m3 & byte & b & S & W1 & W2 & W3 & _ & _ & G).
    split; [exact G|]. split.
    + intros mask s. apply (condition_set_busy ACKEN); [cbn; auto 6|exact G].
    + eexists. exists b, byte. split; [exact S|]. exists m1, m2, m3. auto.
  - intros Hb ack w.
    destruct (i2c_stop_live sched w Hb) as (n1 & w1 & H1).
    destruct (i2c_receive_live char_signed sched ack w Hb)
      as (n2 & r & w2 & H2).
    exists (Nat.max n1 n2), w1, r, w2. split; [apply H1|apply H2]; lia.
Qed.

(** Against the slow peer stop() returns with PEN set, and sendByte returns
    with the flag at 0 after a run of the handler that has cleared it. *)
Lemma primitives_completion_witness :
  i2c_stop (slow_peer true 0x5A) 5 world0 =
  Some (tt, run_world (i2c_stop (slow_peer true 0x5A) 5 world0)) /\
  get_con2 PEN (hw (run_world (i2c_stop (slow_peer true 0x5A) 5 world0)))
  = 1 /\
  i2c_send (slow_peer true 0x5A) 5 0x10 world0 =
  Some (0, run_world (i2c_send (slow_peer true 0x5A) 5 0x10 world0)) /\
  ack_flag (run_world (i2c_send (slow_peer true 0x5A) 5 0x10 world0)) = 0 /\
  exists byte,
    armed_transfer None byte 0 world0
      (run_world (i2c_send (slow_peer true 0x5A) 5 0x10 world0)).
Proof.
  assert (E1 : i2c_stop (slow_peer true 0x5A) 5 world0 =
               Some (tt, run_world (i2c_stop (slow_peer true 0x5A) 5 world0)))
    by (vm_compute; reflexivity).
  assert (E2 : i2c_send (slow_peer true 0x5A) 5 0x10 world0 =
               Some (0, run_world
                          (i2c_send (slow_peer true 0x5A) 5 0x10 world0)))
    by (vm_compute; reflexivity).
  destruct (primitives_completion false (slow_peer true 0x5A))
    as (_ & _ & H3 & _ & H5 & _).
  destruct (H3 _ _ _ _ _ E2) as (F & T).
  destruct (H5 _ _ _ _ E1) as (G & _).
  split; [exact E1|]. split; [exact G|]. split; [exact E2|].
  split; [exact F|exact T].
Defined.

(** ** Who touches [ack_flag], with the state *)



(** ** The rendezvous, with the runs of the handler that do not count *)

(** C6, as stated, fails in both halves.  While sendByte waits, three bus
    conflicts are signalled and the handler runs for each: it finds the
    flag set all three times and leaves it set, and with the run for the
    completion four runs have found the flag set for one return of the
    wait.  And a run of the handler while the flag is clear changes what a
    later arm and wait do: from [stale_world], where a completion signal
    is pending, sendByte returns once the handler is dispatched; after a
    run of the handler that found the flag clear, which has cleared that
    signal, the same sendByte under the same environment never returns. *)
Lemma handler_runs_not_matched :
  i2c_send conflicts_then_completion 5 0x10 world0 =
  Some (0, run_world (i2c_send conflicts_then_completion 5 0x10 world0)) /\
  found_set
    (trace (run_world (i2c_send conflicts_then_completion 5 0x10 world0)))
  = 4%nat /\
  wait_ends
    (trace (run_world (i2c_send conflicts_then_completion 5 0x10 world0)))
  = 1%nat /\
  ack_flag stale_world = 0 /\
  i2c_send (dispatch_at 4) 1 0x10 stale_world =
  Some (1, run_world (i2c_send (dispatch_at 4) 1 0x10 stale_world)) /\
  (forall fuel,
      i2c_send (dispatch_at 4) fuel 0x10 (i2c_interrupt stale_world) = None).
Proof.
  repeat (apply conj; [vm_compute; reflexivity|]).
  intros fuel. apply i2c_send_never_pending.
  - apply dispatch_at_never_pending.
  - reflexivity.
Qed.

(** C6, amended: in every run of a sequence of operations that starts with
    the flag clear, under every environment, the wait returns exactly once
    for each arming, after exactly one run of the handler that finds the
    completion signal pending (SSPIF) and the flag at 1: the events of the
    bridge are one [Arm], one [Clear] and one [Return], in this order, for
    each operation that arms the flag, and the flag is clear again at the
    end.  A run of the handler that finds the flag set without SSPIF
    pending (a bus conflict) leaves it set and lets nothing return.  A run
    of the handler while the flag is clear leaves the flag clear and is no
    bridge event, but like every run it leaves SSPIF clear: an operation
    started after a run of the handler returns only on a completion signal
    that the peripheral raises afterwards.  The wait ends at its next read
    once the flag is clear, and it does not end while every read finds the
    flag set.  Every sequence of operations runs to its end when the
    peripheral settles and the completion interrupt arrives. *)
Theorem bridge_rendezvous (char_signed : bool) (sched : schedule) :
  (forall fuel os w rs w',
      ack_flag w = 0 ->
      run_ops char_signed sched fuel os w = Some (rs, w') ->
      ack_flag w' = 0 /\ exists m, seg w w' m (rendezvous os)) /\
  (forall w,
      bit_of (hw w) SSPIF = false ->
      ack_flag (i2c_interrupt w) = ack_flag w) /\
  (forall w,
      ack_flag w = 0 ->
      ack_flag (i2c_interrupt w) = 0 /\ seg w (i2c_interrupt w) [] []) /\
  (forall w, bit_of (hw (i2c_interrupt w)) SSPIF = false) /\
  (never_pending sched ->
   forall w fuel a d dt,
     i2c_start sched fuel a d (i2c_interrupt w) = None /\
     i2c_rstart char_signed sched fuel a d (i2c_interrupt w) = None /\
     i2c_send sched fuel dt (i2c_interrupt w) = None) /\
  (forall fuel w,
      ack_flag w = 0 ->
      wait_ack sched (S fuel) w = Some (tt, snd (load_ack_flag sched w))) /\
  (forall fuel w,
      (forall n, flag_seen sched n w <> 0) -> wait_ack sched fuel w = None) /\
  (bus_settles sched -> signal_arrives sched ->
   forall os w, exists fuel rs w',
       run_ops char_signed sched fuel os w = Some (rs, w')).
Proof.
  assert (P : forall w, bit_of (hw (i2c_interrupt w)) SSPIF = false).
  { intros w. rewrite i2c_interrupt_hw. destruct (hw w); reflexivity. }
  repeat match goal with |- _ /\ _ => split end.
  - intros fuel os w rs w' F0 H.
    apply (run_ops_bridge _ _ _ _ _ _ _ F0 H).
  - intros w Hs. rewrite i2c_interrupt_flag, Hs. reflexivity.
  - intros w F0. split.
    + rewrite i2c_interrupt_flag, F0.
      destruct (bit_of (hw w) SSPIF); reflexivity.
    + eexists. split; [apply i2c_interrupt_trace|].
      split; [reflexivity|]. unfold bridge. cbn. rewrite F0.
      destruct (sspif (hw w)); reflexivity.
  - exact P.
  - intros Hn w fuel a d dt.
    rewrite i2c_start_address_phase, i2c_rstart_address_phase.
    repeat split.
    + apply address_phase_never_pending; [exact Hn|apply (P w)].
    + apply address_phase_never_pending; [exact Hn|apply (P w)].
    + apply i2c_send_never_pending; [exact Hn|apply (P w)].
  - intros fuel w F0. apply wait_ack_clear, F0.
  - intros fuel w H. apply wait_ack_never, H.
  - intros Hb Hs os w.
    destruct (run_ops_live char_signed sched os Hb Hs w) as (n & rs & w' & H).
    exists n, rs, w'. apply H. lia.
Qed.

(** A write of one byte and a read of one byte against the slow peer: the
    sequence returns, three operations arm the flag, and the bridge sees
    three rendezvous. *)
Lemma bridge_rendezvous_witness :
  run_ops false (slow_peer true 0x5A) 5
    [OpStart 0x50 0; OpSend 0x10; OpRstart 0x50 1; OpReceive 1; OpStop]
    world0 =
  Some ([0; 0; 0; 0x5A; 0],
        run_world
          (run_ops false (slow_peer true 0x5A) 5
             [OpStart 0x50 0; OpSend 0x10; OpRstart 0x50 1;
              OpReceive 1; OpStop] world0)) /\
  ack_flag (run_world
              (run_ops false (slow_peer true 0x5A) 5
                 [OpStart 0x50 0; OpSend 0x10; OpRstart 0x50 1;
                  OpReceive 1; OpStop] world0)) = 0 /\
  exists m,
    seg world0
        (run_world
           (run_ops false (slow_peer true 0x5A) 5
              [OpStart 0x50 0; OpSend 0x10; OpRstart 0x50 1;
               OpReceive 1; OpStop] world0))
        m [Arm; Clear; Return; Arm; Clear; Return; Arm; Clear; Return].
Proof.
  assert (E : run_ops false (slow_peer true 0x5A) 5
                [OpStart 0x50 0; OpSend 0x10; OpRstart 0x50 1;
                 OpReceive 1; OpStop] world0 =
              Some ([0; 0; 0; 0x5A; 0],
                    run_world
                      (run_ops false (slow_peer true 0x5A) 5
                         [OpStart 0x50 0; OpSend 0x10; OpRstart 0x50 1;
                          OpReceive 1; OpStop] world0)))
    by (vm_compute; reflexivity).
  destruct (bridge_rendezvous false (slow_peer true 0x5A)) as (H & _).
  split; [exact E|].
  apply (H 5%nat _ world0 _ _ eq_refl E).
Defined.
